(** * developerbox_spi: bit-bang SPI over the CP2102N GPIO latch

    A shallow embedding of [developerbox_spi.c] (flashrom).  The driver talks
    to libusb and to flashrom's registries; those calls are recorded as
    events of a trace, and what the outside world answers is read from
    explicit records ([world], [usb_device], [xfer_reply]).  The two global
    variables of the file are threaded as a state. *)

From Stdlib Require Import ZArith List Bool Lia String Ascii.
Import ListNotations.
Local Open Scope string_scope.
Local Open Scope Z_scope.

(** ** C integer conversions *)

Module CInt.

(** Conversion to [uint8_t]. *)
Definition u8 (x : Z) : Z := x mod 2 ^ 8.

(** Conversion to [uint16_t]. *)
Definition u16 (x : Z) : Z := x mod 2 ^ 16.

(** [!x] and [!!x] on an [int]. *)
Definition lnot (x : Z) : Z := if x =? 0 then 1 else 0.

End CInt.
Import CInt.

(** ** libusb as seen from the driver *)

(** The negative return codes of libusb ([enum libusb_error]). *)
Inductive libusb_error : Set :=
| LIBUSB_ERROR_IO
| LIBUSB_ERROR_INVALID_PARAM
| LIBUSB_ERROR_ACCESS
| LIBUSB_ERROR_NO_DEVICE
| LIBUSB_ERROR_NOT_FOUND
| LIBUSB_ERROR_BUSY
| LIBUSB_ERROR_TIMEOUT
| LIBUSB_ERROR_OVERFLOW
| LIBUSB_ERROR_PIPE
| LIBUSB_ERROR_INTERRUPTED
| LIBUSB_ERROR_NO_MEM
| LIBUSB_ERROR_NOT_SUPPORTED
| LIBUSB_ERROR_OTHER.

Definition error_code (e : libusb_error) : Z :=
  match e with
  | LIBUSB_ERROR_IO => -1
  | LIBUSB_ERROR_INVALID_PARAM => -2
  | LIBUSB_ERROR_ACCESS => -3
  | LIBUSB_ERROR_NO_DEVICE => -4
  | LIBUSB_ERROR_NOT_FOUND => -5
  | LIBUSB_ERROR_BUSY => -6
  | LIBUSB_ERROR_TIMEOUT => -7
  | LIBUSB_ERROR_OVERFLOW => -8
  | LIBUSB_ERROR_PIPE => -9
  | LIBUSB_ERROR_INTERRUPTED => -10
  | LIBUSB_ERROR_NO_MEM => -11
  | LIBUSB_ERROR_NOT_SUPPORTED => -12
  | LIBUSB_ERROR_OTHER => -99
  end.

(** The fields of [struct libusb_device_descriptor] the driver reads. *)
Record libusb_device_descriptor : Set := {
  idVendor : Z;
  idProduct : Z;
  iSerialNumber : Z
}.

(** An open handle is named by the position of its device in the
    enumeration list; a context by a number. *)
Definition handle := nat.
Definition context := nat.

(** The arguments of one [libusb_control_transfer] call, under the names of
    libusb's prototype
    [(dev_handle, bmRequestType, bRequest, wValue, wIndex, data, wLength, timeout)].
    [data] is [None] for a NULL pointer and [Some b] for a pointer to one
    byte holding [b]. *)
Record control_transfer : Set := {
  bmRequestType : Z;
  bRequest : Z;
  wValue : Z;
  wIndex : Z;
  data : option Z;
  wLength : Z;
  timeout : Z
}.

(** What the device answers to a control transfer: an error, or the bytes of
    the data phase (none for a transfer without one). *)
Definition xfer_reply : Set := (libusb_error + list Z)%type.

(** What one attached device answers during selection. *)
Record usb_device : Set := {
  dev_descriptor : libusb_error + libusb_device_descriptor;
  dev_open : option libusb_error;
  (** the serial-number string of the device, as ASCII text of any length,
      or the error reading it gives *)
  dev_serial : libusb_error + string
}.

(** What the environment answers during initialisation. *)
Record world : Set := {
  (** [extract_programmer_param("serial")]: NULL or a C string *)
  param_serial : option string;
  (** the context [libusb_init] creates, or nothing when it fails *)
  new_context : option context;
  (** [libusb_get_device_list] *)
  device_list : libusb_error + list usb_device;
  (** return values of flashrom's two registries *)
  register_shutdown_ret : Z;
  register_spi_bitbang_master_ret : Z
}.

(** ** Traces and the program monad *)

Inductive msg_level : Set := PERR | PINFO | PDBG.

Inductive event : Set :=
| EvMsg (lvl : msg_level) (fmt : string)
| EvExtractParam (name : string)
| EvFreeParam
| EvInit
| EvExit (ctx : option context)
| EvGetDeviceList
| EvFreeDeviceList
| EvGetDeviceDescriptor (dev : nat)
| EvOpen (dev : nat)
| EvClose (h : option handle)
| EvGetStringDescriptorAscii (h : handle) (index : Z) (length : Z)
| EvControlTransfer (h : option handle) (t : control_transfer)
| EvRegisterShutdown
| EvRegisterSpiBitbangMaster.

(** The two globals of the file: [usb_ctx] and [cp210x_handle]. *)
Record globals : Set := {
  usb_ctx : option context;
  cp210x_handle : option handle
}.

Definition M (A : Type) : Type := globals -> A * globals * list event.

Definition ret {A} (a : A) : M A := fun g => (a, g, []).

Definition bind {A B} (c : M A) (k : A -> M B) : M B :=
  fun g =>
    let '(a, g1, t1) := c g in
    let '(b, g2, t2) := k a g1 in
    (b, g2, (t1 ++ t2)%list).

Definition emit (e : event) : M unit := fun g => (tt, g, [e]).

Definition get_usb_ctx : M (option context) := fun g => (usb_ctx g, g, []).
Definition get_cp210x_handle : M (option handle) :=
  fun g => (cp210x_handle g, g, []).
Definition set_usb_ctx (c : option context) : M unit :=
  fun g => (tt, {| usb_ctx := c; cp210x_handle := cp210x_handle g |}, []).
Definition set_cp210x_handle (h : option handle) : M unit :=
  fun g => (tt, {| usb_ctx := usb_ctx g; cp210x_handle := h |}, []).

Declare Scope prog_scope.
Delimit Scope prog_scope with prog.
Notation "x <- c1 ;; c2" := (bind c1 (fun x => c2))
  (at level 61, c1 at next level, right associativity) : prog_scope.
Notation "' pat <- c1 ;; c2" :=
  (bind c1 (fun x => match x with pat => c2 end))
  (at level 61, pat pattern, c1 at next level, right associativity) : prog_scope.
Notation "c1 ;; c2" := (bind c1 (fun _ => c2))
  (at level 61, right associativity) : prog_scope.
Local Open Scope prog_scope.

Definition result {A} (c : M A) (g : globals) : A := fst (fst (c g)).
Definition final {A} (c : M A) (g : globals) : globals := snd (fst (c g)).
Definition trace {A} (c : M A) (g : globals) : list event := snd (c g).

(** The three log calls; a message is recorded by its format string,
    without the trailing newline and the arguments. *)
Definition msg_perr (fmt : string) : M unit := emit (EvMsg PERR fmt).
Definition msg_pinfo (fmt : string) : M unit := emit (EvMsg PINFO fmt).
Definition msg_pdbg (fmt : string) : M unit := emit (EvMsg PDBG fmt).

(** [libusb_control_transfer]: the call is recorded; the result is the error
    code or the number of bytes moved, and the one-byte buffer afterwards. *)
Definition libusb_control_transfer (h : option handle)
    (reqtype req value index : Z) (buf : option Z) (len tmo : Z)
    (reply : xfer_reply) : M (Z * option Z) :=
  emit (EvControlTransfer h
          {| bmRequestType := reqtype; bRequest := req; wValue := value;
             wIndex := index; data := buf; wLength := len; timeout := tmo |}) ;;
  match reply with
  | inl e => ret (error_code e, buf)
  | inr bytes =>
      match buf, bytes with
      | Some _, b :: _ => if 1 <=? len then ret (1, Some b) else ret (0, buf)
      | _, _ => ret (0, buf)
      end
  end.

(** ** Constants of the driver *)

(** Bit positions for each pin. *)
Definition DEVELOPERBOX_SPI_SCK : Z := 0.
Definition DEVELOPERBOX_SPI_CS : Z := 1.
Definition DEVELOPERBOX_SPI_MISO : Z := 2.
Definition DEVELOPERBOX_SPI_MOSI : Z := 3.

(** Config request types. *)
Definition REQTYPE_HOST_TO_DEVICE : Z := 0x40.
Definition REQTYPE_DEVICE_TO_HOST : Z := 0xc0.

(** Config request codes. *)
Definition CP210X_VENDOR_SPECIFIC : Z := 0xFF.

Definition CP210X_WRITE_LATCH : Z := 0x37E1.
Definition CP210X_READ_LATCH : Z := 0x00C2.

Record dev_entry : Set := {
  vendor_id : Z;
  device_id : Z;
  vendor_name : string;
  device_name : string
}.

Definition devs_developerbox : list dev_entry :=
  [ {| vendor_id := 0x10C4; device_id := 0xEA60;
       vendor_name := "Silicon Labs";
       device_name := "CP2102N USB to UART Bridge Controller" |} ].

(** ** Latch register I/O *)

(** [cp210x_gpio_get].  [gpio0] is the indeterminate content of the local
    [gpio] before the transfer writes to it. *)
Definition cp210x_gpio_get (gpio0 : Z) (reply : xfer_reply) : M Z :=
  h <- get_cp210x_handle ;;
  ' (res, gpio) <- libusb_control_transfer h REQTYPE_DEVICE_TO_HOST
                     CP210X_VENDOR_SPECIFIC CP210X_READ_LATCH
                     0 (Some (u8 gpio0)) 1 0 reply ;;
  if res <? 0 then
    msg_perr "Failed to read GPIO pins (%s)" ;;
    ret 0
  else
    ret (match gpio with Some b => b | None => u8 gpio0 end).

(** The packed word of line 92, as stored in the [uint16_t gpio]. *)
Definition gpio_word (val mask : Z) : Z :=
  u16 (Z.lor (Z.shiftl (Z.land val 0xf) 8) (Z.land mask 0xf)).

(** [cp210x_gpio_set]; [val] and [mask] are [uint8_t] parameters. *)
Definition cp210x_gpio_set (val mask : Z) (reply : xfer_reply) : M unit :=
  let gpio := gpio_word val mask in
  h <- get_cp210x_handle ;;
  ' (res, _) <- libusb_control_transfer h REQTYPE_HOST_TO_DEVICE
                  CP210X_VENDOR_SPECIFIC CP210X_WRITE_LATCH
                  gpio None 0 0 reply ;;
  if res <? 0 then
    msg_perr "Failed to read GPIO pins (%s)"
  else
    ret tt.

(** ** Bit-bang pin adapter *)

Definition cp210x_bitbang_set_cs (val : Z) (reply : xfer_reply) : M unit :=
  cp210x_gpio_set (u8 (Z.shiftl val DEVELOPERBOX_SPI_CS))
                  (u8 (Z.shiftl 1 DEVELOPERBOX_SPI_CS)) reply.

Definition cp210x_bitbang_set_sck (val : Z) (reply : xfer_reply) : M unit :=
  cp210x_gpio_set (u8 (Z.shiftl val DEVELOPERBOX_SPI_SCK))
                  (u8 (Z.shiftl 1 DEVELOPERBOX_SPI_SCK)) reply.

Definition cp210x_bitbang_set_mosi (val : Z) (reply : xfer_reply) : M unit :=
  cp210x_gpio_set (u8 (Z.shiftl val DEVELOPERBOX_SPI_MOSI))
                  (u8 (Z.shiftl 1 DEVELOPERBOX_SPI_MOSI)) reply.

Definition cp210x_bitbang_get_miso (gpio0 : Z) (reply : xfer_reply) : M Z :=
  v <- cp210x_gpio_get gpio0 reply ;;
  ret (lnot (lnot (Z.land v (Z.shiftl 1 DEVELOPERBOX_SPI_MISO)))).

Definition cp210x_bitbang_set_sck_set_mosi (sck mosi : Z) (reply : xfer_reply)
    : M unit :=
  cp210x_gpio_set
    (u8 (Z.lor (Z.shiftl sck DEVELOPERBOX_SPI_SCK)
               (Z.shiftl mosi DEVELOPERBOX_SPI_MOSI)))
    (u8 (Z.lor (Z.shiftl 1 DEVELOPERBOX_SPI_SCK)
               (Z.shiftl 1 DEVELOPERBOX_SPI_MOSI))) reply.

(** [struct bitbang_spi_master], without its type tag: the five entry
    points the generic bit-bang master calls. *)
Record bitbang_spi_master : Type := {
  set_cs : Z -> xfer_reply -> M unit;
  set_sck : Z -> xfer_reply -> M unit;
  set_mosi : Z -> xfer_reply -> M unit;
  get_miso : Z -> xfer_reply -> M Z;
  set_sck_set_mosi : Z -> Z -> xfer_reply -> M unit
}.

Definition bitbang_spi_master_cp210x : bitbang_spi_master :=
  {| set_cs := cp210x_bitbang_set_cs;
     set_sck := cp210x_bitbang_set_sck;
     set_mosi := cp210x_bitbang_set_mosi;
     get_miso := cp210x_bitbang_get_miso;
     set_sck_set_mosi := cp210x_bitbang_set_sck_set_mosi |}.

(** ** The C library calls of the serial check *)

(** The byte a C string pointer points at: NUL at the end of the string. *)
Definition byte_at (s : string) : Z :=
  match s with
  | EmptyString => 0
  | String c _ => Z.of_nat (nat_of_ascii c)
  end.

Definition advance (s : string) : string :=
  match s with
  | EmptyString => EmptyString
  | String _ s' => s'
  end.

Fixpoint strlen (s : string) : nat :=
  match s with
  | EmptyString => O
  | String c s' => if byte_at s =? 0 then O else S (strlen s')
  end.

Fixpoint strncmp (s1 s2 : string) (n : nat) : Z :=
  match n with
  | O => 0
  | S n' =>
      let c1 := byte_at s1 in
      let c2 := byte_at s2 in
      if c1 =? c2 then
        if c1 =? 0 then 0 else strncmp (advance s1) (advance s2) n'
      else c1 - c2
  end.

(** A string without a NUL byte inside: what a [char *] can denote. *)
Fixpoint no_nul (s : string) : bool :=
  match s with
  | EmptyString => true
  | String c s' => negb (byte_at s =? 0) && no_nul s'
  end.

(** ** Device selector *)

Definition libusb_get_device_list (w : world) : M (Z * list usb_device) :=
  emit EvGetDeviceList ;;
  match device_list w with
  | inl e => ret (error_code e, [])
  | inr l => ret (Z.of_nat (List.length l), l)
  end.

Definition libusb_free_device_list : M unit := emit EvFreeDeviceList.

Definition libusb_get_device_descriptor (i : nat) (dev : usb_device)
    : M (Z * libusb_device_descriptor) :=
  emit (EvGetDeviceDescriptor i) ;;
  match dev_descriptor dev with
  | inl e => ret (error_code e, {| idVendor := 0; idProduct := 0; iSerialNumber := 0 |})
  | inr desc => ret (0, desc)
  end.

Definition libusb_open (i : nat) (dev : usb_device) : M (Z * handle) :=
  emit (EvOpen i) ;;
  match dev_open dev with
  | Some e => ret (error_code e, i)
  | None => ret (0, i)
  end.

Definition libusb_close (h : option handle) : M unit := emit (EvClose h).

(** [libusb_get_string_descriptor_ascii] with a buffer of [len] bytes: of
    the device's string at most [len - 1] characters are stored, followed
    by a NUL; the result is the number of characters stored. *)
Definition libusb_get_string_descriptor_ascii (h : handle) (dev : usb_device)
    (index len : Z) : M (Z * string) :=
  emit (EvGetStringDescriptorAscii h index len) ;;
  match dev_serial dev with
  | inl e => ret (error_code e, EmptyString)
  | inr s =>
      let stored := substring 0 (Z.to_nat (len - 1)) s in
      ret (Z.of_nat (String.length stored), stored)
  end.

(** How one turn of the [for] loop ends. *)
Inductive flow : Set :=
| Continue
| Return (h : handle).

(** The body of the loop of [get_device_by_vid_pid_serial] for [list[i]]. *)
Definition loop_body (vid pid : Z) (serialno : option string)
    (i : nat) (dev : usb_device) : M flow :=
  ' (res, desc) <- libusb_get_device_descriptor i dev ;;
  if negb (res =? 0) then
    msg_perr "Reading the USB device descriptor failed (%s)!" ;;
    ret Continue
  else if negb (idVendor desc =? vid) && negb (idProduct desc =? pid) then
    ret Continue
  else
    msg_pdbg "Found USB device %04x:%04x at address %d-%d." ;;
    ' (res, handle) <- libusb_open i dev ;;
    if negb (res =? 0) then
      msg_perr "Opening the USB device failed (%s)!" ;;
      ret Continue
    else
      let accept := (libusb_free_device_list ;; ret (Return handle)) in
      match serialno with
      | Some serialno =>
          ' (res, myserial) <- libusb_get_string_descriptor_ascii
                                 handle dev (iSerialNumber desc) 64 ;;
          if res <? 0 then
            msg_perr "Reading the USB serialno failed (%s)!" ;;
            libusb_close (Some handle) ;;
            ret Continue
          else
            msg_pdbg "Serial number is %s" ;;
            if negb (0 =? strncmp serialno myserial (strlen serialno)) then
              libusb_close (Some handle) ;;
              ret Continue
            else accept
      | None => accept
      end.

(** The loop, from index [i] over the rest of the list, and the two lines
    after it. *)
Fixpoint device_loop (vid pid : Z) (serialno : option string)
    (i : nat) (list : list usb_device) : M (option handle) :=
  match list with
  | [] =>
      libusb_free_device_list ;;
      ret None
  | dev :: rest =>
      r <- loop_body vid pid serialno i dev ;;
      match r with
      | Return h => ret (Some h)
      | Continue => device_loop vid pid serialno (S i) rest
      end
  end.

Definition get_device_by_vid_pid_serial (w : world) (vid pid : Z)
    (serialno : option string) : M (option handle) :=
  ' (count, list) <- libusb_get_device_list w ;;
  if count <? 0 then
    msg_perr "Getting the USB device list failed (%s)!" ;;
    ret None
  else
    device_loop vid pid serialno 0 list.

(** ** Lifecycle manager *)

Definition libusb_exit (ctx : option context) : M unit := emit (EvExit ctx).

(** [libusb_init(&usb_ctx)]: stores the new context on success. *)
Definition libusb_init (w : world) : M unit :=
  emit EvInit ;;
  match new_context w with
  | Some c => set_usb_ctx (Some c)
  | None => ret tt
  end.

Definition extract_programmer_param (w : world) (name : string)
    : M (option string) :=
  emit (EvExtractParam name) ;;
  ret (param_serial w).

Definition free_param (p : option string) : M unit := emit EvFreeParam.

Definition register_shutdown (w : world) : M Z :=
  emit EvRegisterShutdown ;;
  ret (register_shutdown_ret w).

Definition register_spi_bitbang_master (w : world) : M Z :=
  emit EvRegisterSpiBitbangMaster ;;
  ret (register_spi_bitbang_master_ret w).

Definition developerbox_spi_shutdown : M Z :=
  h <- get_cp210x_handle ;;
  libusb_close h ;;
  ctx <- get_usb_ctx ;;
  libusb_exit ctx ;;
  ret 0.

Definition first_entry : dev_entry :=
  nth 0 devs_developerbox
    {| vendor_id := 0; device_id := 0; vendor_name := ""; device_name := "" |}.

Definition developerbox_spi_init (w : world) : M Z :=
  serialno <- extract_programmer_param w "serial" ;;
  (match serialno with
   | Some _ => msg_pinfo "Looking for serial number commencing %s"
   | None => ret tt
   end) ;;
  libusb_init w ;;
  ctx <- get_usb_ctx ;;
  match ctx with
  | None =>
      msg_perr "Could not initialize libusb!" ;;
      free_param serialno ;;
      ret 1
  | Some _ =>
      let vid := vendor_id first_entry in
      let pid := device_id first_entry in
      h <- get_device_by_vid_pid_serial w vid pid serialno ;;
      set_cp210x_handle h ;;
      free_param serialno ;;
      match h with
      | None =>
          msg_perr "Could not find a Developerbox programmer on USB." ;;
          ctx <- get_usb_ctx ;;
          libusb_exit ctx ;;
          ret 1
      | Some _ =>
          r <- register_shutdown w ;;
          if negb (r =? 0) then ret 1
          else
            r <- register_spi_bitbang_master w ;;
            if negb (r =? 0) then
              msg_perr "Developerbox bitbang SPI master init failed!" ;;
              ret 1
            else ret 0
      end
  end.

(** The globals as the C runtime initialises them. *)
Definition globals0 : globals := {| usb_ctx := None; cp210x_handle := None |}.

(** ** Reading traces *)

(** The control transfers of a trace, in order. *)
Fixpoint transfers (t : list event) : list control_transfer :=
  match t with
  | [] => []
  | EvControlTransfer _ x :: t' => x :: transfers t'
  | _ :: t' => transfers t'
  end.

Definition is_free_device_list (e : event) : bool :=
  match e with EvFreeDeviceList => true | _ => false end.

Definition is_get_string (e : event) : bool :=
  match e with EvGetStringDescriptorAscii _ _ _ => true | _ => false end.

Definition is_exit (e : event) : bool :=
  match e with EvExit _ => true | _ => false end.

Definition is_close (e : event) : bool :=
  match e with EvClose _ => true | _ => false end.

Definition is_register (e : event) : bool :=
  match e with
  | EvRegisterShutdown | EvRegisterSpiBitbangMaster => true
  | _ => false
  end.

(** The positions [libusb_open] was called on. *)
Fixpoint opened (t : list event) : list nat :=
  match t with
  | [] => []
  | EvOpen i :: t' => i :: opened t'
  | _ :: t' => opened t'
  end.

Definition count (p : event -> bool) (t : list event) : nat :=
  List.length (filter p t).

(** ** Reading a latch write *)



(** ** The checks of the device selector, as predicates *)

(** The vendor/product test of line 157, as the condition to go on. *)
Definition id_filter (vid pid : Z) (desc : libusb_device_descriptor) : bool :=
  negb (negb (idVendor desc =? vid) && negb (idProduct desc =? pid)).

(** The block under [if (serialno)], as the condition to go on. *)
Definition serial_filter (serialno : option string) (dev : usb_device) : bool :=
  match serialno with
  | None => true
  | Some F =>
      match dev_serial dev with
      | inl _ => false
      | inr s => 0 =? strncmp F (substring 0 63 s) (strlen F)
      end
  end.

(** All the checks of the loop body; [loop_body_result] shows that this is
    what the body decides. *)
Definition accepted (vid pid : Z) (serialno : option string)
    (dev : usb_device) : bool :=
  match dev_descriptor dev with
  | inl _ => false
  | inr desc =>
      id_filter vid pid desc &&
      match dev_open dev with
      | Some _ => false
      | None => serial_filter serialno dev
      end
  end.

(** A turn talks to libusb and the log only. *)
Definition selector_event (e : event) : bool :=
  match e with
  | EvMsg _ _ | EvGetDeviceList | EvFreeDeviceList | EvGetDeviceDescriptor _
  | EvOpen _ | EvClose _ | EvGetStringDescriptorAscii _ _ _ => true
  | _ => false
  end.

(** The first position, counted from [i], whose device passes [accepted]. *)
Fixpoint first_accepted (vid pid : Z) (serialno : option string)
    (i : nat) (list : list usb_device) : option nat :=
  match list with
  | [] => None
  | dev :: rest =>
      if accepted vid pid serialno dev then Some i
      else first_accepted vid pid serialno (S i) rest
  end.

(** ** Names for the parts of an initialisation run *)

(** The selector call of line 217. *)
Definition select_developerbox (w : world) : M (option handle) :=
  get_device_by_vid_pid_serial w 0x10C4 0xEA60 (param_serial w).

(** The globals once [libusb_init] has stored the context [c]. *)
Definition with_context (c : context) (g : globals) : globals :=
  {| usb_ctx := Some c; cp210x_handle := cp210x_handle g |}.

(** What initialisation does up to the return of the selector. *)
Definition prologue (w : world) (g1 : globals) : list event :=
  (EvExtractParam "serial" ::
   match param_serial w with
   | Some _ => [EvMsg PINFO "Looking for serial number commencing %s"]
   | None => []
   end ++ EvInit :: trace (select_developerbox w) g1)%list.

(** ** Devices and worlds for concrete runs *)

(** A device that answers every call: its IDs and its serial string. *)
Definition attached (vendor product : Z) (serial : string) : usb_device :=
  {| dev_descriptor :=
       inr {| idVendor := vendor; idProduct := product; iSerialNumber := 3 |};
     dev_open := None;
     dev_serial := inr serial |}.

(** A world where libusb and both registries succeed. *)
Definition bench (filter : option string) (devs : list usb_device) : world :=
  {| param_serial := filter;
     new_context := Some 7%nat;
     device_list := inr devs;
     register_shutdown_ret := 0;
     register_spi_bitbang_master_ret := 0 |}.

(** The bridge the driver is written for, and a CP2105 of the same vendor
    (product 0xEA70), and a device of another vendor that reuses the
    product number. *)
Definition cp2102n : usb_device := attached 0x10C4 0xEA60 "ABC123".

Definition cp2105 : usb_device := attached 0x10C4 0xEA70 "00F00D".

Definition foreign_ea60 : usb_device := attached 0x1A86 0xEA60 "X".

(** A serial number of 64 characters, one more than the read buffer can
    hold, and a bridge that carries it. *)
Definition long_serial : string :=
  "0123456789ABCDEF0123456789ABCDEF0123456789ABCDEF0123456789ABCDEF".

Definition long_bridge : usb_device := attached 0x10C4 0xEA60 long_serial.

(** A world without any device attached. *)
Definition no_device : world := bench None [].

(** A world where the shutdown registry refuses the hook. *)
Definition hook_refused : world :=
  {| param_serial := Some "ABC1";
     new_context := Some 7%nat;
     device_list := inr [attached 0x10C4 0xEA60 "ABD000"; cp2102n];
     register_shutdown_ret := 1;
     register_spi_bitbang_master_ret := 0 |}.

(** ** More readings of a trace *)

(** The positions whose descriptor was asked for, in order. *)
Fixpoint described (t : list event) : list nat :=
  match t with
  | [] => []
  | EvGetDeviceDescriptor i :: t' => i :: described t'
  | _ :: t' => described t'
  end.

(** The handles [libusb_close] was called on, in order. *)
Fixpoint closed (t : list event) : list (option handle) :=
  match t with
  | [] => []
  | EvClose h :: t' => h :: closed t'
  | _ :: t' => closed t'
  end.

(** The handles control transfers were addressed to, in order. *)
Fixpoint addressed (t : list event) : list (option handle) :=
  match t with
  | [] => []
  | EvControlTransfer h _ :: t' => h :: addressed t'
  | _ :: t' => addressed t'
  end.

(** One call the generic master makes through the table, together with
    what the device answers to it (and, for a read, what the local [gpio]
    held before). *)
Inductive pin_call : Set :=
| CallSetCs (val : Z) (reply : xfer_reply)
| CallSetSck (val : Z) (reply : xfer_reply)
| CallSetMosi (val : Z) (reply : xfer_reply)
| CallGetMiso (gpio0 : Z) (reply : xfer_reply)
| CallSetSckSetMosi (sck mosi : Z) (reply : xfer_reply).

Definition run_call (m : bitbang_spi_master) (c : pin_call) : M unit :=
  match c with
  | CallSetCs val reply => set_cs m val reply
  | CallSetSck val reply => set_sck m val reply
  | CallSetMosi val reply => set_mosi m val reply
  | CallGetMiso gpio0 reply => _ <- get_miso m gpio0 reply ;; ret tt
  | CallSetSckSetMosi sck mosi reply => set_sck_set_mosi m sck mosi reply
  end.

(** Any number of such calls, one after the other. *)
Fixpoint run_calls (m : bitbang_spi_master) (cs : list pin_call) : M unit :=
  match cs with
  | [] => ret tt
  | c :: cs' => run_call m c ;; run_calls m cs'
  end.

Definition is_perr (e : event) : bool :=
  match e with EvMsg PERR _ => true | _ => false end.

Definition is_free_param (e : event) : bool :=
  match e with EvFreeParam => true | _ => false end.

Definition is_enumeration (e : event) : bool :=
  match e with EvGetDeviceList => true | _ => false end.

(** The state [developerbox_spi_init] leaves [libusb_init] in. *)
Definition after_libusb_init (w : world) (g : globals) : globals :=
  match new_context w with
  | Some c => with_context c g
  | None => g
  end.

(** A device whose serial string cannot be read. *)
Definition mute_bridge : usb_device :=
  {| dev_descriptor :=
       inr {| idVendor := 0x10C4; idProduct := 0xEA60; iSerialNumber := 3 |};
     dev_open := None;
     dev_serial := inl LIBUSB_ERROR_PIPE |}.

(** A device that cannot be opened, and one whose descriptor cannot be
    read. *)
Definition locked_bridge : usb_device :=
  {| dev_descriptor :=
       inr {| idVendor := 0x10C4; idProduct := 0xEA60; iSerialNumber := 3 |};
     dev_open := Some LIBUSB_ERROR_ACCESS;
     dev_serial := inr "ABC123" |}.

Definition unreadable : usb_device :=
  {| dev_descriptor := inl LIBUSB_ERROR_IO;
     dev_open := None;
     dev_serial := inr "ABC123" |}.

(** Worlds in which libusb has no context to give, the enumeration fails,
    or the SPI registry refuses the master. *)
Definition no_libusb : world :=
  {| param_serial := Some "ABC1";
     new_context := None;
     device_list := inr [cp2102n];
     register_shutdown_ret := 0;
     register_spi_bitbang_master_ret := 0 |}.

Definition no_enumeration : world :=
  {| param_serial := None;
     new_context := Some 7%nat;
     device_list := inl LIBUSB_ERROR_NO_MEM;
     register_shutdown_ret := 0;
     register_spi_bitbang_master_ret := 0 |}.

Definition master_refused : world :=
  {| param_serial := None;
     new_context := Some 7%nat;
     device_list := inr [cp2102n];
     register_shutdown_ret := 0;
     register_spi_bitbang_master_ret := 1 |}.

(** * Latch register I/O: proofs *)

Section Latch.

Variable g : globals.

Lemma error_code_neg (e : libusb_error) : (error_code e <? 0) = true.
Proof. destruct e; reflexivity. Qed.

Lemma error_code_nonzero (e : libusb_error) : negb (error_code e =? 0) = true.
Proof. destruct e; reflexivity. Qed.

(** Whatever the device answers, a latch write is one transfer. *)
Lemma gpio_set_transfers (val mask : Z) (reply : xfer_reply) :
  transfers (trace (cp210x_gpio_set val mask reply) g) =
  [ {| bmRequestType := REQTYPE_HOST_TO_DEVICE;
       bRequest := CP210X_VENDOR_SPECIFIC;
       wValue := CP210X_WRITE_LATCH;
       wIndex := gpio_word val mask;
       data := None; wLength := 0; timeout := 0 |} ].
Proof.
  destruct reply as [e | bytes]; [destruct e |]; reflexivity.
Qed.

Lemma land_nibble (x : Z) : 0 <= x < 16 -> Z.land x 0xf = x.
Proof.
  intros Hx. change 0xf with (Z.ones 4).
  rewrite Z.land_ones by lia. apply Z.mod_small. lia.
Qed.

Lemma nibble_bit_high (x n : Z) : 4 <= n -> Z.testbit (Z.land x 0xf) n = false.
Proof.
  intros Hn. rewrite Z.land_spec. change 0xf with (Z.ones 4).
  rewrite Z.ones_spec_high by lia. apply andb_false_r.
Qed.

(** The packed word, bit by bit. *)
Lemma gpio_word_bit (val mask n : Z) :
  0 <= n ->
  Z.testbit (gpio_word val mask) n =
  if n <? 4 then Z.testbit mask n
  else if n <? 8 then false
  else if n <? 12 then Z.testbit val (n - 8)
  else false.
Proof.
  intros Hn. unfold gpio_word, u16.
  destruct (Z.ltb_spec n 4) as [H4 | H4].
  { rewrite Z.mod_pow2_bits_low by lia.
    rewrite Z.lor_spec, Z.shiftl_spec_low by lia.
    rewrite Z.land_spec. change 0xf with (Z.ones 4).
    rewrite Z.ones_spec_low by lia. now rewrite andb_true_r. }
  destruct (Z.ltb_spec n 8) as [H8 | H8].
  { rewrite Z.mod_pow2_bits_low by lia.
    rewrite Z.lor_spec, Z.shiftl_spec_low by lia.
    now rewrite nibble_bit_high by lia. }
  destruct (Z.ltb_spec n 12) as [H12 | H12].
  { rewrite Z.mod_pow2_bits_low by lia.
    rewrite Z.lor_spec, Z.shiftl_spec by lia.
    rewrite (nibble_bit_high mask) by lia. rewrite orb_false_r.
    rewrite Z.land_spec. change 0xf with (Z.ones 4).
    rewrite Z.ones_spec_low by lia. now rewrite andb_true_r. }
  destruct (Z.ltb_spec n 16) as [H16 | H16].
  { rewrite Z.mod_pow2_bits_low by lia.
    rewrite Z.lor_spec, Z.shiftl_spec by lia.
    now rewrite !nibble_bit_high by lia. }
  apply Z.mod_pow2_bits_high. lia.
Qed.

Lemma gpio_word_nibbles (v m : Z) :
  0 <= v < 16 -> 0 <= m < 16 ->
  gpio_word v m = Z.lor (Z.shiftl v 8) m.
Proof.
  intros Hv Hm. apply Z.bits_inj'. intros n Hn.
  rewrite gpio_word_bit by assumption.
  rewrite Z.lor_spec.
  assert (Hhigh : forall x k, 0 <= x < 16 -> 4 <= k -> Z.testbit x k = false).
  { intros x k Hx Hk. rewrite <- (land_nibble x Hx). now apply nibble_bit_high. }
  destruct (Z.ltb_spec n 4).
  { rewrite Z.shiftl_spec_low by lia. reflexivity. }
  destruct (Z.ltb_spec n 8).
  { rewrite Z.shiftl_spec_low by lia. now rewrite (Hhigh m) by lia. }
  rewrite Z.shiftl_spec by lia. rewrite (Hhigh m n) by lia.
  rewrite orb_false_r.
  destruct (Z.ltb_spec n 12); [reflexivity |].
  symmetry. apply Hhigh; lia.
Qed.

End Latch.

(** C2, as the claim states it, fails: the write of value 1 under mask 1 does
    not carry the packed word in its value field with a zero index. *)
Lemma write_latch_claimed_fields_counterexample :
  ~ (exists t,
       transfers (trace (cp210x_gpio_set 1 1 (inr [])) globals0) = [t] /\
       bmRequestType t = 0x40 /\ bRequest t = 0xFF /\
       wValue t = Z.lor (Z.shiftl 1 8) 1 /\ wIndex t = 0 /\
       data t = None /\ wLength t = 0).
Proof.
  intros (t & Ht & _ & _ & Hval & _).
  rewrite gpio_set_transfers in Ht.
  injection Ht as <-. discriminate Hval.
Qed.

(** C2 (amended): for every value nibble and mask nibble, the latch write
    issues one host-to-device vendor control transfer with request type
    0x40 and request code 0xFF whose value field is the write-latch selector
    0x37E1, whose index field is (value nibble << 8) | mask nibble, and which
    has no data phase (NULL buffer, length 0). *)
Theorem write_latch_transfer (v m : Z) (reply : xfer_reply) (g : globals) :
  0 <= v < 16 -> 0 <= m < 16 ->
  transfers (trace (cp210x_gpio_set v m reply) g) =
  [ {| bmRequestType := 0x40; bRequest := 0xFF;
       wValue := 0x37E1;
       wIndex := Z.lor (Z.shiftl v 8) m;
       data := None; wLength := 0; timeout := 0 |} ].
Proof.
  intros Hv Hm. rewrite gpio_set_transfers.
  now rewrite gpio_word_nibbles by assumption.
Qed.

Lemma write_latch_transfer_witness :
  transfers (trace (cp210x_gpio_set 0x9 0xf (inl LIBUSB_ERROR_PIPE)) globals0) =
  [ {| bmRequestType := 0x40; bRequest := 0xFF;
       wValue := 0x37E1; wIndex := 0x090f;
       data := None; wLength := 0; timeout := 0 |} ].
Proof.
  apply (write_latch_transfer 0x9 0xf (inl LIBUSB_ERROR_PIPE) globals0); lia.
Defined.


(** C9: whatever [val] and [mask] are, the word a latch write sends has
    bits 4 to 7 and bits 12 to 15 clear: both fields are cut to their low
    nibble before packing. *)
Theorem write_latch_word_nibbles_only
    (val mask : Z) (reply : xfer_reply) (g : globals) :
  map wIndex (transfers (trace (cp210x_gpio_set val mask reply) g)) =
    [gpio_word val mask] /\
  Forall (fun n => Z.testbit (gpio_word val mask) n = false)
         [4; 5; 6; 7; 12; 13; 14; 15] /\
  Z.land (gpio_word val mask) 0xF0F0 = 0.
Proof.
  split; [now rewrite gpio_set_transfers |].
  split.
  - repeat constructor; now rewrite gpio_word_bit by lia.
  - apply Z.bits_inj'. intros n Hn.
    rewrite Z.land_spec, Z.bits_0, gpio_word_bit by assumption.
    destruct (Z.ltb_spec n 4) as [H4 | H4].
    { assert (Hc : n = 0 \/ n = 1 \/ n = 2 \/ n = 3) by lia.
      destruct Hc as [-> | [-> | [-> | ->]]]; apply andb_false_r. }
    destruct (Z.ltb_spec n 8); [reflexivity |].
    destruct (Z.ltb_spec n 12) as [H12 | H12]; [| reflexivity].
    assert (Hc : n = 8 \/ n = 9 \/ n = 10 \/ n = 11) by lia.
    destruct Hc as [-> | [-> | [-> | ->]]]; apply andb_false_r.
Qed.

Lemma land_bit2 (v : Z) :
  lnot (lnot (Z.land v (Z.shiftl 1 DEVELOPERBOX_SPI_MISO))) =
  Z.b2z (Z.testbit v 2).
Proof.
  change (Z.shiftl 1 DEVELOPERBOX_SPI_MISO) with (2 ^ 2).
  assert (H : Z.land v (2 ^ 2) = if Z.testbit v 2 then 2 ^ 2 else 0).
  { apply Z.bits_inj'. intros n Hn.
    rewrite Z.land_spec, Z.pow2_bits_eqb by lia.
    destruct (Z.eqb_spec 2 n) as [<- | Hne].
    - destruct (Z.testbit v 2); reflexivity.
    - rewrite andb_false_r.
      destruct (Z.testbit v 2);
        [rewrite Z.pow2_bits_eqb by lia; symmetry; now apply Z.eqb_neq
        | now rewrite Z.bits_0]. }
  rewrite H. destruct (Z.testbit v 2); reflexivity.
Qed.

(** C6 (the code departs from it): a latch read whose transfer fails logs
    the failure and returns 0, and one that receives a byte returns that
    byte; but a transfer that ends without error and without a byte
    ([libusb_control_transfer] returns 0, which passes the test
    [res < 0]) makes the read return the local [gpio] as it was before
    the call, that is an indeterminate value, with nothing logged.  So
    data-in reads as 0 on a failed transfer and as bit 2 of the byte when
    one arrived, but as bit 2 of that indeterminate value on an empty
    transfer: with 4 on the stack it answers 1. *)
Theorem latch_read_fallback (gpio0 : Z) (g : globals) :
  (forall e : libusb_error,
     result (cp210x_gpio_get gpio0 (inl e)) g = 0 /\
     In (EvMsg PERR "Failed to read GPIO pins (%s)")
        (trace (cp210x_gpio_get gpio0 (inl e)) g) /\
     result (cp210x_bitbang_get_miso gpio0 (inl e)) g = 0) /\
  (forall (b : Z) (more : list Z),
     result (cp210x_gpio_get gpio0 (inr (b :: more))) g = b /\
     trace (cp210x_gpio_get gpio0 (inr (b :: more))) g =
       [EvControlTransfer (cp210x_handle g)
          {| bmRequestType := 0xC0; bRequest := 0xFF; wValue := 0x00C2;
             wIndex := 0; data := Some (u8 gpio0); wLength := 1;
             timeout := 0 |}] /\
     result (cp210x_bitbang_get_miso gpio0 (inr (b :: more))) g =
       Z.b2z (Z.testbit b 2)) /\
  (result (cp210x_gpio_get gpio0 (inr [])) g = u8 gpio0 /\
   count is_perr (trace (cp210x_gpio_get gpio0 (inr [])) g) = 0%nat /\
   result (cp210x_bitbang_get_miso gpio0 (inr [])) g =
     Z.b2z (Z.testbit (u8 gpio0) 2)) /\
  (result (cp210x_gpio_get 4 (inr [])) globals0 = 4 /\
   result (cp210x_bitbang_get_miso 4 (inr [])) globals0 = 1).
Proof.
  split; [| split; [| split]].
  - intros e. destruct e; repeat split; cbn; auto.
  - intros b more. repeat split.
    unfold cp210x_bitbang_get_miso, result, bind. cbn.
    apply land_bit2.
  - repeat split.
    unfold cp210x_bitbang_get_miso, result, bind. cbn -[u8].
    apply land_bit2.
  - split; reflexivity.
Qed.

(** * The serial check: [strncmp] over [strlen] bytes is a prefix test *)

Lemma byte_at_inj (a b : ascii) (s t : string) :
  byte_at (String a s) = byte_at (String b t) -> a = b.
Proof.
  cbn. intros H. apply Nat2Z.inj in H.
  rewrite <- (ascii_nat_embedding a), <- (ascii_nat_embedding b).
  now rewrite H.
Qed.

Lemma strncmp_prefix (F : string) :
  no_nul F = true ->
  forall s : string, (0 =? strncmp F s (strlen F)) = prefix F s.
Proof.
  induction F as [| a F' IH]; intros Hnul s.
  - destruct s; reflexivity.
  - cbn [no_nul] in Hnul. apply andb_true_iff in Hnul as [Ha Hnul].
    apply negb_true_iff in Ha.
    cbn [strlen]. rewrite Ha. cbn [strncmp advance].
    destruct s as [| b s'].
    + cbn [prefix]. change (byte_at EmptyString) with 0.
      rewrite Ha. apply Z.eqb_neq in Ha. apply Z.eqb_neq. lia.
    + cbn [prefix advance].
      destruct (Z.eqb_spec (byte_at (String a F')) (byte_at (String b s')))
        as [Heq | Hne].
      * rewrite Ha. apply byte_at_inj in Heq. subst b.
        destruct (ascii_dec a a) as [_ | Hn]; [now apply IH | now destruct Hn].
      * destruct (ascii_dec a b) as [-> | _].
        { now destruct Hne. }
        apply Z.eqb_neq. lia.
Qed.

Lemma prefix_append (F s : string) :
  prefix F s = true <-> exists T, s = (F ++ T)%string.
Proof.
  revert s. induction F as [| a F' IH]; intros s.
  - split; [exists s; reflexivity | destruct s; reflexivity].
  - destruct s as [| b s']; cbn [prefix].
    + split; [discriminate | intros [T HT]; discriminate HT].
    + destruct (ascii_dec a b) as [-> | Hne].
      * rewrite IH. split; intros [T HT]; exists T.
        { cbn. now rewrite HT. }
        { cbn in HT. now injection HT. }
      * split; [discriminate |].
        intros [T HT]. cbn in HT. injection HT as E _. now destruct Hne.
Qed.

Lemma prefix_refl (s : string) : prefix s s = true.
Proof. apply prefix_append. exists EmptyString. induction s; cbn; congruence. Qed.

(** A prefix of the first [n] characters is a prefix of at most [n]
    characters. *)
Lemma prefix_substring (n : nat) :
  forall F s : string,
    prefix F (substring 0 n s) = prefix F s && (String.length F <=? n)%nat.
Proof.
  induction n as [| n IH]; intros F s.
  - destruct F as [| a F'].
    + destruct s; reflexivity.
    + cbn [String.length Nat.leb]. rewrite andb_false_r.
      destruct s; reflexivity.
  - destruct s as [| c s'].
    + destruct F; reflexivity.
    + destruct F as [| a F']; [reflexivity |].
      cbn [substring prefix String.length]. 
      destruct (ascii_dec a c); [| reflexivity]. 
      rewrite IH. reflexivity.
Qed.

(** * Device selector: what one turn of the loop decides *)

Lemma of_nat_ltb_0 (n : nat) : (Z.of_nat n <? 0) = false.
Proof. apply Z.ltb_ge. lia. Qed.

Ltac unfold_body :=
  unfold loop_body, accepted, id_filter, serial_filter,
    libusb_get_device_descriptor, libusb_open, libusb_close,
    libusb_get_string_descriptor_ascii, libusb_free_device_list,
    msg_perr, msg_pdbg, result, final, trace, bind, emit, ret;
  change (Z.to_nat (64 - 1)) with 63%nat.

(** Case analysis over everything the loop body branches on. *)
Ltac body_cases vid pid serialno dev :=
  unfold_body;
  destruct (dev_descriptor dev) as [e | desc];
  [ cbn -[error_code Z.eqb]; rewrite ?error_code_nonzero; cbn
  | cbn -[Z.eqb];
    destruct (negb (idVendor desc =? vid) && negb (idProduct desc =? pid));
    [ cbn
    | cbn -[error_code Z.eqb]; destruct (dev_open dev) as [e |];
      [ cbn -[error_code Z.eqb]; rewrite ?error_code_nonzero; cbn
      | cbn -[error_code Z.eqb Z.ltb Z.of_nat strncmp strlen substring
              String.length];
        destruct serialno as [F |];
        [ destruct (dev_serial dev) as [e | s];
          [ cbn -[error_code Z.ltb]; rewrite ?error_code_neg; cbn
          | cbn -[Z.ltb Z.of_nat strncmp strlen Z.eqb substring String.length];
            rewrite ?of_nat_ltb_0;
            destruct (0 =? strncmp F (substring 0 63 s) (strlen F));
            cbn ]
        | cbn ] ] ] ].

Section Body.

Variables (vid pid : Z) (serialno : option string).
Variables (i : nat) (dev : usb_device) (g : globals).

Lemma loop_body_result :
  result (loop_body vid pid serialno i dev) g =
  if accepted vid pid serialno dev then Return i else Continue.
Proof. body_cases vid pid serialno dev; reflexivity. Qed.

Lemma loop_body_final : final (loop_body vid pid serialno i dev) g = g.
Proof. body_cases vid pid serialno dev; reflexivity. Qed.

(** The list is released in the turn that returns, and only there. *)
Lemma loop_body_frees :
  filter is_free_device_list (trace (loop_body vid pid serialno i dev) g) =
  if accepted vid pid serialno dev then [EvFreeDeviceList] else [].
Proof. body_cases vid pid serialno dev; reflexivity. Qed.

(** A turn opens its own device at most, and closes what it opened unless
    it returns it. *)
Lemma loop_body_opened :
  incl (opened (trace (loop_body vid pid serialno i dev) g)) [i].
Proof.
  body_cases vid pid serialno dev;
    (apply incl_nil_l || apply incl_refl).
Qed.

Lemma loop_body_accept_opens :
  accepted vid pid serialno dev = true ->
  opened (trace (loop_body vid pid serialno i dev) g) = [i].
Proof. body_cases vid pid serialno dev; intros H; (discriminate H || reflexivity). Qed.

Lemma loop_body_closes (ev : event) :
  In ev (trace (loop_body vid pid serialno i dev) g) ->
  is_close ev = true ->
  ev = EvClose (Some i) /\ accepted vid pid serialno dev = false.
Proof.
  body_cases vid pid serialno dev; intros Hin Hc;
    repeat (destruct Hin as [<- | Hin]; [try discriminate Hc; auto |]);
    destruct Hin.
Qed.

Lemma loop_body_events :
  forallb selector_event (trace (loop_body vid pid serialno i dev) g) = true.
Proof. body_cases vid pid serialno dev; reflexivity. Qed.

End Body.

(** * Device selector: the loop *)

Lemma opened_app (t1 t2 : list event) :
  opened (t1 ++ t2) = (opened t1 ++ opened t2)%list.
Proof.
  induction t1 as [| e t1 IH]; [reflexivity |].
  destruct e; cbn; rewrite ?IH; reflexivity.
Qed.

Section Loop.

Variables (vid pid : Z) (serialno : option string).

Let body := loop_body vid pid serialno.
Let loop := device_loop vid pid serialno.
Let ok := accepted vid pid serialno.

Lemma device_loop_nil (i : nat) (g : globals) :
  loop i [] g = (None, g, [EvFreeDeviceList]).
Proof. reflexivity. Qed.

(** One turn of the loop: the body, then the rest unless the body returned. *)
Lemma device_loop_cons (i : nat) (dev : usb_device) (rest : list usb_device)
    (g : globals) :
  loop i (dev :: rest) g =
  if ok dev then (Some i, g, trace (body i dev) g)
  else (result (loop (S i) rest) g, final (loop (S i) rest) g,
        (trace (body i dev) g ++ trace (loop (S i) rest) g)%list).
Proof.
  subst body loop ok. cbn [device_loop]. unfold bind at 1.
  pose proof (loop_body_result vid pid serialno i dev g) as Hr.
  pose proof (loop_body_final vid pid serialno i dev g) as Hf.
  unfold result, final, trace in *.
  destruct (loop_body vid pid serialno i dev g) as [[r g1] t1].
  cbn [fst snd] in *. subst r g1.
  destruct (accepted vid pid serialno dev).
  - unfold ret. now rewrite app_nil_r.
  - now destruct (device_loop vid pid serialno (S i) rest g) as [[r g2] t2].
Qed.

Lemma device_loop_result (list : list usb_device) :
  forall i g, result (loop i list) g = first_accepted vid pid serialno i list.
Proof.
  induction list as [| dev rest IH]; intros i g; [reflexivity |].
  unfold result. rewrite device_loop_cons. cbn [first_accepted].
  fold ok. destruct (ok dev); [reflexivity |]. apply IH.
Qed.

Lemma device_loop_final (list : list usb_device) :
  forall i g, final (loop i list) g = g.
Proof.
  induction list as [| dev rest IH]; intros i g; [reflexivity |].
  unfold final. rewrite device_loop_cons.
  destruct (ok dev); [reflexivity |]. apply IH.
Qed.

Lemma device_loop_trace_cons (i : nat) (dev : usb_device)
    (rest : list usb_device) (g : globals) :
  trace (loop i (dev :: rest)) g =
  (trace (body i dev) g ++
   if ok dev then [] else trace (loop (S i) rest) g)%list.
Proof.
  unfold trace at 1. rewrite device_loop_cons.
  destruct (ok dev); cbn [snd]; [now rewrite app_nil_r | reflexivity].
Qed.

(** The enumeration list is released exactly once by the loop. *)
Lemma device_loop_frees (list : list usb_device) :
  forall i g,
    filter is_free_device_list (trace (loop i list) g) = [EvFreeDeviceList].
Proof.
  induction list as [| dev rest IH]; intros i g; [reflexivity |].
  rewrite device_loop_trace_cons, filter_app.
  subst body. rewrite loop_body_frees. fold ok.
  destruct (ok dev); [reflexivity |]. apply IH.
Qed.

Lemma device_loop_events (list : list usb_device) :
  forall i g, forallb selector_event (trace (loop i list) g) = true.
Proof.
  induction list as [| dev rest IH]; intros i g; [reflexivity |].
  rewrite device_loop_trace_cons, forallb_app.
  subst body. rewrite loop_body_events.
  destruct (ok dev); [reflexivity |]. apply IH.
Qed.

(** Positions are visited upwards from [i]. *)
Lemma first_accepted_ge (list : list usb_device) :
  forall i h, first_accepted vid pid serialno i list = Some h -> (i <= h)%nat.
Proof.
  induction list as [| dev rest IH]; intros i h; cbn; [discriminate |].
  destruct (accepted vid pid serialno dev).
  - intros [= <-]. lia.
  - intros H. apply IH in H. lia.
Qed.

(** Nothing is opened before [i], nor after the position returned. *)
Lemma device_loop_opened (list : list usb_device) :
  forall i g j,
    In j (opened (trace (loop i list) g)) ->
    (i <= j)%nat /\
    forall h, result (loop i list) g = Some h -> (j <= h)%nat.
Proof.
  induction list as [| dev rest IH]; intros i g j; [intros [] |].
  rewrite device_loop_trace_cons, opened_app, device_loop_result.
  cbn [first_accepted]. fold ok. intros Hin.
  apply in_app_or in Hin as [Hin | Hin].
  - apply (loop_body_opened vid pid serialno i dev g) in Hin.
    destruct Hin as [<- | []]. split; [lia |].
    destruct (ok dev); [intros h [= <-]; lia |].
    intros h H. apply first_accepted_ge in H. lia.
  - destruct (ok dev); [destruct Hin |].
    apply IH in Hin as [Hge Hle]. split; [lia |].
    intros h H. apply Hle. now rewrite device_loop_result.
Qed.

(** The device returned is opened, once. *)
Lemma device_loop_opens_result (list : list usb_device) :
  forall i g h,
    result (loop i list) g = Some h ->
    List.length (filter (Nat.eqb h) (opened (trace (loop i list) g))) = 1%nat.
Proof.
  induction list as [| dev rest IH]; intros i g h; [discriminate |].
  rewrite device_loop_trace_cons, opened_app, filter_app, length_app.
  rewrite device_loop_result. cbn [first_accepted]. fold ok.
  destruct (ok dev) eqn:Hok.
  - intros [= <-]. subst body.
    rewrite (loop_body_accept_opens vid pid serialno i dev g Hok).
    cbn. now rewrite Nat.eqb_refl.
  - intros H. pose proof (first_accepted_ge _ _ _ H) as Hge.
    assert (Hnone : filter (Nat.eqb h) (opened (trace (body i dev) g)) = []).
    { pose proof (loop_body_opened vid pid serialno i dev g) as Hincl.
      fold body in Hincl.
      destruct (filter (Nat.eqb h) (opened (trace (body i dev) g)))
        as [| x xs] eqn:Hf; [reflexivity |].
      assert (Hx : In x (x :: xs)) by now left.
      rewrite <- Hf in Hx. apply filter_In in Hx as [Hx Heq].
      apply Hincl in Hx. destruct Hx as [<- | []].
      apply Nat.eqb_eq in Heq. lia. }
    rewrite Hnone. cbn. apply IH. now rewrite device_loop_result.
Qed.

(** Every handle closed belongs to a position before the one returned. *)
Lemma device_loop_closed (list : list usb_device) :
  forall i g ev,
    In ev (trace (loop i list) g) -> is_close ev = true ->
    exists j, ev = EvClose (Some j) /\ (i <= j)%nat /\
      forall h, result (loop i list) g = Some h -> (j < h)%nat.
Proof.
  induction list as [| dev rest IH]; intros i g ev.
  - intros [<- | []]. discriminate.
  - rewrite device_loop_trace_cons, device_loop_result.
    cbn [first_accepted]. fold ok. intros Hin Hc.
    apply in_app_or in Hin as [Hin | Hin].
    + destruct (loop_body_closes vid pid serialno i dev g ev Hin Hc)
        as [-> Hrej].
      exists i. split; [reflexivity |]. split; [lia |].
      fold ok in Hrej. rewrite Hrej. intros h H.
      apply first_accepted_ge in H. lia.
    + destruct (ok dev); [destruct Hin |].
      destruct (IH (S i) g ev Hin Hc) as (j & -> & Hge & Hlt).
      exists j. split; [reflexivity |]. split; [lia |].
      intros h H. apply Hlt. now rewrite device_loop_result.
Qed.

End Loop.

(** * Device selector: the whole function *)

Section Selector.

Variables (w : world) (vid pid : Z) (serialno : option string) (g : globals).

Let select := get_device_by_vid_pid_serial w vid pid serialno.

Lemma select_run_listed (list : list usb_device) :
  device_list w = inr list ->
  select g =
  (first_accepted vid pid serialno 0 list, g,
   EvGetDeviceList :: trace (device_loop vid pid serialno 0 list) g).
Proof.
  intros Hl. subst select.
  unfold get_device_by_vid_pid_serial, libusb_get_device_list, bind, emit, ret.
  rewrite Hl. cbn -[Z.ltb Z.of_nat device_loop]. rewrite of_nat_ltb_0.
  pose proof (device_loop_result vid pid serialno list 0 g) as Hr.
  pose proof (device_loop_final vid pid serialno list 0 g) as Hf.
  unfold result, final, trace in *.
  destruct (device_loop vid pid serialno 0 list g) as [[r g1] t].
  cbn [fst snd] in *. now subst.
Qed.

Lemma select_run_failed (e : libusb_error) :
  device_list w = inl e ->
  select g =
  (None, g,
   [EvGetDeviceList; EvMsg PERR "Getting the USB device list failed (%s)!"]).
Proof.
  intros Hl. subst select.
  unfold get_device_by_vid_pid_serial, libusb_get_device_list, bind, emit, ret.
  rewrite Hl. cbn -[Z.ltb error_code]. now rewrite error_code_neg.
Qed.

Lemma select_final : final select g = g.
Proof.
  unfold final. destruct (device_list w) as [e | list] eqn:Hl.
  - now rewrite (select_run_failed e Hl).
  - now rewrite (select_run_listed list Hl).
Qed.

Lemma select_events : forallb selector_event (trace select g) = true.
Proof.
  unfold trace. destruct (device_list w) as [e | list] eqn:Hl.
  - now rewrite (select_run_failed e Hl).
  - rewrite (select_run_listed list Hl). cbn [snd forallb selector_event].
    apply device_loop_events.
Qed.

(** The handle returned is never closed during selection. *)
Lemma select_keeps_result (h : handle) :
  result select g = Some h -> ~ In (EvClose (Some h)) (trace select g).
Proof.
  unfold result, trace. destruct (device_list w) as [e | list] eqn:Hl.
  - rewrite (select_run_failed e Hl). discriminate.
  - rewrite (select_run_listed list Hl). cbn [fst snd].
    intros Hr [Hc | Hin]; [discriminate Hc |].
    destruct (device_loop_closed vid pid serialno list 0 g _ Hin eq_refl)
      as (j & [= <-] & _ & Hlt).
    rewrite device_loop_result in Hlt. specialize (Hlt h Hr). lia.
Qed.

End Selector.

(** The result of selection does not depend on the globals. *)
Lemma select_result_globals (w : world) (vid pid : Z)
    (serialno : option string) (g g' : globals) :
  result (get_device_by_vid_pid_serial w vid pid serialno) g =
  result (get_device_by_vid_pid_serial w vid pid serialno) g'.
Proof.
  unfold result. destruct (device_list w) as [e | list] eqn:Hl.
  - now rewrite !(select_run_failed _ _ _ _ _ e Hl).
  - now rewrite !(select_run_listed _ _ _ _ _ list Hl).
Qed.

(** What [first_accepted] returns is the least accepted position. *)
Lemma first_accepted_spec (vid pid : Z) (serialno : option string)
    (list : list usb_device) :
  forall i h,
    first_accepted vid pid serialno i list = Some h <->
    exists k dev,
      h = (i + k)%nat /\ nth_error list k = Some dev /\
      accepted vid pid serialno dev = true /\
      forall j d, (j < k)%nat -> nth_error list j = Some d ->
                  accepted vid pid serialno d = false.
Proof.
  induction list as [| dev rest IH]; intros i h; cbn [first_accepted].
  - split; [discriminate |]. intros (k & d & _ & Hk & _). now destruct k.
  - destruct (accepted vid pid serialno dev) eqn:Hok.
    + split.
      * intros [= <-]. exists 0%nat, dev. repeat split; auto; try lia.
      * intros (k & d & -> & Hk & Hd & Hmin). destruct k as [| k].
        { f_equal. lia. }
        specialize (Hmin 0%nat dev ltac:(lia) eq_refl). congruence.
    + rewrite IH. split.
      * intros (k & d & -> & Hk & Hd & Hmin). exists (S k), d.
        repeat split; auto; try lia.
        intros [| j] d' Hj Hn; cbn in Hn; [congruence |].
        apply (Hmin j); [lia | assumption].
      * intros (k & d & -> & Hk & Hd & Hmin). destruct k as [| k].
        { cbn in Hk. congruence. }
        exists k, d. repeat split; auto; try lia.
        intros j d' Hj Hn. apply (Hmin (S j)); [lia | assumption].
Qed.

Lemma first_accepted_none (vid pid : Z) (serialno : option string)
    (list : list usb_device) :
  forall i,
    first_accepted vid pid serialno i list = None <->
    forallb (fun dev => negb (accepted vid pid serialno dev)) list = true.
Proof.
  induction list as [| dev rest IH]; intros i; cbn; [tauto |].
  destruct (accepted vid pid serialno dev); cbn; [split; discriminate |].
  apply IH.
Qed.

(** With the filter the code applies, selection is a first-match search:
    it returns the least position that passes [accepted], opens nothing
    after it, and returns NULL exactly when no position passes. *)
Lemma select_first_accepted (w : world) (vid pid : Z)
    (serialno : option string) (g : globals) (list : list usb_device) :
  device_list w = inr list ->
  let run := get_device_by_vid_pid_serial w vid pid serialno in
  result run g = first_accepted vid pid serialno 0 list /\
  (forall h j, result run g = Some h -> In j (opened (trace run g)) ->
               (j <= h)%nat) /\
  (forall h, result run g = Some h -> In h (opened (trace run g))).
Proof.
  intros Hl run. subst run. unfold result, trace.
  rewrite (select_run_listed _ _ _ _ _ list Hl). cbn [fst snd opened].
  split; [reflexivity |]. split.
  - intros h j Hr Hin.
    apply device_loop_opened in Hin as [_ Hle].
    apply Hle. now rewrite device_loop_result.
  - intros h Hr.
    pose proof (device_loop_opens_result vid pid serialno list 0 g h) as Hone.
    rewrite device_loop_result in Hone. specialize (Hone Hr).
    destruct (filter (Nat.eqb h)
                (opened (trace (device_loop vid pid serialno 0 list) g)))
      as [| x xs] eqn:Hf; [discriminate Hone |].
    assert (Hx : In x (x :: xs)) by now left.
    rewrite <- Hf in Hx. apply filter_In in Hx as [Hx Heq].
    apply Nat.eqb_eq in Heq. now subst x.
Qed.

(** The release of the list is the last thing selection does. *)
Lemma loop_body_ends_with_free (vid pid : Z) (serialno : option string)
    (i : nat) (dev : usb_device) (g : globals) :
  accepted vid pid serialno dev = true ->
  exists pre,
    trace (loop_body vid pid serialno i dev) g = (pre ++ [EvFreeDeviceList])%list.
Proof.
  body_cases vid pid serialno dev; intros H; try discriminate H;
    match goal with
    | |- exists pre, ?t = _ => exists (removelast t); reflexivity
    end.
Qed.

Lemma device_loop_ends_with_free (vid pid : Z) (serialno : option string)
    (list : list usb_device) :
  forall i g, exists pre,
    trace (device_loop vid pid serialno i list) g =
    (pre ++ [EvFreeDeviceList])%list.
Proof.
  induction list as [| dev rest IH]; intros i g.
  - now exists [].
  - rewrite device_loop_trace_cons.
    destruct (accepted vid pid serialno dev) eqn:Hok.
    + rewrite app_nil_r. now apply loop_body_ends_with_free.
    + destruct (IH (S i) g) as [pre Hpre]. rewrite Hpre.
      eexists. apply app_assoc.
Qed.

Lemma loop_body_no_filter_no_read (vid pid : Z) (serialno : option string)
    (i : nat) (dev : usb_device) (g : globals) :
  serialno = None ->
  filter is_get_string (trace (loop_body vid pid serialno i dev) g) = [].
Proof.
  body_cases vid pid serialno dev; intros H; try discriminate H; reflexivity.
Qed.

(** * Device selector: the claims *)

(** C1 (the code departs from it): the candidate filter of line 157 lets a
    device through as soon as ONE of its two IDs equals the target's.  A
    CP2105 (same vendor, other product) is opened and returned for the
    target 10C4:EA60, and so is a device of another vendor with product
    EA60; initialisation succeeds on the CP2105. *)
Theorem id_filter_accepts_single_id_match :
  (forall vid pid desc,
     id_filter vid pid desc =
     (idVendor desc =? vid) || (idProduct desc =? pid)) /\
  (let run := get_device_by_vid_pid_serial (bench None [cp2105])
                0x10C4 0xEA60 None in
   result run globals0 = Some 0%nat /\ opened (trace run globals0) = [0%nat]) /\
  (let run := get_device_by_vid_pid_serial (bench None [foreign_ea60])
                0x10C4 0xEA60 None in
   result run globals0 = Some 0%nat /\ opened (trace run globals0) = [0%nat]) /\
  result (loop_body 0x10C4 0xEA60 None 0 cp2105) globals0 = Return 0%nat /\
  result (developerbox_spi_init (bench None [cp2105])) globals0 = 0.
Proof.
  split.
  - intros vid pid desc. unfold id_filter.
    now rewrite negb_andb, !negb_involutive.
  - repeat split.
Qed.

(** C4, as the claim states it, fails: a bridge whose serial number has 64
    characters is passed over when the filter is that very serial number,
    although the serial number starts with the filter. *)
Lemma serial_filter_equal_to_long_serial_counterexample :
  ~ (result (loop_body 0x10C4 0xEA60 (Some long_serial) 0 long_bridge) globals0
       = Return 0%nat <->
     prefix long_serial long_serial = true).
Proof.
  intros [_ H]. specialize (H eq_refl). discriminate H.
Qed.

(** C4 (amended): for a candidate that reached the serial check
    (descriptor read, ID test passed, opened) and whose serial string [s]
    can be read, the turn of the loop returns the candidate exactly when
    the first 63 characters of [s], which is what the 64-byte buffer
    holds, start with the filter [F] byte for byte, that is when [s]
    starts with [F] and [F] has at most 63 characters; otherwise it
    closes the handle and goes on.  The empty filter accepts every such
    candidate, and the filter [s] itself accepts [s] when [s] has at most
    63 characters.  Without a filter the candidate is returned and no
    serial string is read at all. *)
Theorem serial_check_is_prefix_test
    (vid pid : Z) (i : nat) (dev : usb_device)
    (desc : libusb_device_descriptor) (s : string) (g : globals) :
  dev_descriptor dev = inr desc ->
  (negb (idVendor desc =? vid) && negb (idProduct desc =? pid)) = false ->
  dev_open dev = None ->
  dev_serial dev = inr s ->
  (forall F, no_nul F = true ->
     result (loop_body vid pid (Some F) i dev) g =
       (if prefix F (substring 0 63 s) then Return i else Continue) /\
     trace (loop_body vid pid (Some F) i dev) g =
       [EvGetDeviceDescriptor i;
        EvMsg PDBG "Found USB device %04x:%04x at address %d-%d.";
        EvOpen i;
        EvGetStringDescriptorAscii i (iSerialNumber desc) 64;
        EvMsg PDBG "Serial number is %s";
        if prefix F (substring 0 63 s)
        then EvFreeDeviceList else EvClose (Some i)] /\
     (prefix F (substring 0 63 s) = true <->
      (String.length F <= 63)%nat /\ exists rest, s = (F ++ rest)%string)) /\
  result (loop_body vid pid (Some EmptyString) i dev) g = Return i /\
  (no_nul s = true -> (String.length s <= 63)%nat ->
   result (loop_body vid pid (Some s) i dev) g = Return i) /\
  result (loop_body vid pid None i dev) g = Return i /\
  count is_get_string (trace (loop_body vid pid None i dev) g) = 0%nat.
Proof.
  intros Hdesc Hid Hopen Hser.
  assert (Hres : forall F, no_nul F = true ->
            result (loop_body vid pid (Some F) i dev) g =
            if prefix F (substring 0 63 s) then Return i else Continue).
  { intros F HF. rewrite loop_body_result.
    unfold accepted, id_filter, serial_filter.
    rewrite Hdesc, Hid, Hopen, Hser. cbn [negb andb].
    now rewrite strncmp_prefix. }
  split; [| split; [| split; [| split]]].
  - intros F HF. split; [now apply Hres |]. split.
    + unfold_body. rewrite Hdesc. cbn -[Z.eqb]. rewrite Hid.
      cbn -[Z.eqb Z.ltb Z.of_nat strncmp strlen substring String.length].
      rewrite Hopen, Hser.
      cbn -[Z.eqb Z.ltb Z.of_nat strncmp strlen substring String.length].
      rewrite of_nat_ltb_0, strncmp_prefix by assumption.
      destruct (prefix F (substring 0 63 s)); reflexivity.
    + rewrite prefix_substring, andb_true_iff, Nat.leb_le, prefix_append.
      tauto.
  - rewrite Hres by reflexivity. now destruct s.
  - intros Hs Hlen. rewrite Hres by assumption.
    rewrite prefix_substring, prefix_refl.
    apply Nat.leb_le in Hlen. now rewrite Hlen.
  - rewrite loop_body_result. unfold accepted, id_filter, serial_filter.
    now rewrite Hdesc, Hid, Hopen.
  - unfold count. now rewrite loop_body_no_filter_no_read.
Qed.

Lemma serial_check_is_prefix_test_witness :
  no_nul "ABC1" = true /\
  result (loop_body 0x10C4 0xEA60 (Some "ABC1") 0 cp2102n) globals0 = Return 0%nat /\
  result (loop_body 0x10C4 0xEA60 (Some "ABC9") 0 cp2102n) globals0 = Continue.
Proof.
  pose proof (serial_check_is_prefix_test 0x10C4 0xEA60 0 cp2102n
                {| idVendor := 0x10C4; idProduct := 0xEA60; iSerialNumber := 3 |}
                "ABC123" globals0 eq_refl eq_refl eq_refl eq_refl) as [H _].
  split; [reflexivity |]. split.
  - exact (proj1 (H "ABC1" eq_refl)).
  - exact (proj1 (H "ABC9" eq_refl)).
Defined.

(** C5 (the code departs from it): with a CP2105 enumerated before the
    real bridge, selection for 10C4:EA60 opens and returns the CP2105 at
    position 0, whose product ID is not the target's, and never opens the
    bridge at position 1; with the CP2105 alone it still returns a device
    instead of NULL. *)
Theorem select_returns_half_matching_candidate :
  (let run := get_device_by_vid_pid_serial (bench None [cp2105; cp2102n])
                0x10C4 0xEA60 None in
   result run globals0 = Some 0%nat /\
   nth_error [cp2105; cp2102n] 0 = Some cp2105 /\
   dev_descriptor cp2105 =
     inr {| idVendor := 0x10C4; idProduct := 0xEA70; iSerialNumber := 3 |} /\
   opened (trace run globals0) = [0%nat]) /\
  result (get_device_by_vid_pid_serial (bench None [cp2105])
            0x10C4 0xEA60 None) globals0 = Some 0%nat.
Proof. repeat split. Qed.

(** C7: when the enumeration list was acquired, selection releases it
    exactly once, whatever it returns, and the release is its last
    action. *)
Theorem device_list_released_once
    (w : world) (vid pid : Z) (serialno : option string) (g : globals)
    (list : list usb_device) :
  device_list w = inr list ->
  let run := get_device_by_vid_pid_serial w vid pid serialno in
  count is_free_device_list (trace run g) = 1%nat /\
  exists pre, trace run g = (pre ++ [EvFreeDeviceList])%list.
Proof.
  intros Hl run. subst run. unfold trace, count.
  rewrite (select_run_listed _ _ _ _ _ list Hl). cbn [snd filter is_free_device_list].
  split.
  - now rewrite device_loop_frees.
  - destruct (device_loop_ends_with_free vid pid serialno list 0 g) as [pre Hpre].
    exists (EvGetDeviceList :: pre). now rewrite Hpre.
Qed.

Lemma device_list_released_once_witness :
  let w := bench (Some "ABC9") [cp2105; cp2102n] in
  device_list w = inr [cp2105; cp2102n] /\
  result (get_device_by_vid_pid_serial w 0x10C4 0xEA60 (Some "ABC9")) globals0
    = None /\
  count is_free_device_list
    (trace (get_device_by_vid_pid_serial w 0x10C4 0xEA60 (Some "ABC9")) globals0)
    = 1%nat.
Proof.
  split; [reflexivity |]. split; [reflexivity |].
  exact (proj1 (device_list_released_once
                  (bench (Some "ABC9") [cp2105; cp2102n]) 0x10C4 0xEA60
                  (Some "ABC9") globals0 [cp2105; cp2102n] eq_refl)).
Defined.

(** * Lifecycle manager: proofs *)

Lemma selector_events_clean (t : list event) :
  forallb selector_event t = true ->
  filter is_register t = [] /\ filter is_exit t = [].
Proof.
  induction t as [| e t IH]; [now split |].
  cbn [forallb]. intros H. apply andb_true_iff in H as [He Ht].
  destruct (IH Ht) as [IH1 IH2].
  destruct e; try discriminate He; cbn; now split.
Qed.

Section Init.

Variables (w : world) (g : globals) (c : context).
Hypothesis Hctx : new_context w = Some c.

Let g1 : globals := with_context c g.

(** The run of [developerbox_spi_init] once the context exists, path by
    path. *)
Lemma init_run :
  developerbox_spi_init w g =
  match result (select_developerbox w) g1 with
  | None =>
      (1, {| usb_ctx := Some c; cp210x_handle := None |},
       prologue w g1 ++
       [EvFreeParam;
        EvMsg PERR "Could not find a Developerbox programmer on USB.";
        EvExit (Some c)])
  | Some h =>
      let g3 := {| usb_ctx := Some c; cp210x_handle := Some h |} in
      if negb (register_shutdown_ret w =? 0) then
        (1, g3, prologue w g1 ++ [EvFreeParam; EvRegisterShutdown])
      else if negb (register_spi_bitbang_master_ret w =? 0) then
        (1, g3,
         prologue w g1 ++
         [EvFreeParam; EvRegisterShutdown; EvRegisterSpiBitbangMaster;
          EvMsg PERR "Developerbox bitbang SPI master init failed!"])
      else
        (0, g3,
         prologue w g1 ++
         [EvFreeParam; EvRegisterShutdown; EvRegisterSpiBitbangMaster])
  end%list.
Proof.
  pose proof (select_final w 0x10C4 0xEA60 (param_serial w) g1) as Hf.
  unfold prologue.
  unfold developerbox_spi_init, extract_programmer_param, libusb_init,
    free_param, register_shutdown, register_spi_bitbang_master, libusb_exit,
    msg_pinfo, msg_perr, set_usb_ctx, set_cp210x_handle, get_usb_ctx,
    bind, emit, ret.
  rewrite Hctx.
  change (vendor_id first_entry) with 0x10C4.
  change (device_id first_entry) with 0xEA60.
  fold (select_developerbox w) in *.
  unfold result, final, trace in *.
  destruct (param_serial w) as [F |];
    cbn -[Z.eqb select_developerbox]; fold (with_context c g); fold g1;
    destruct (select_developerbox w g1) as [[h g2] t];
    cbn [fst snd] in *; subst g2;
    (destruct h as [h |]; cbn -[Z.eqb];
     [ destruct (negb (register_shutdown_ret w =? 0)); cbn -[Z.eqb];
       [| destruct (negb (register_spi_bitbang_master_ret w =? 0)); cbn ]
     | ]);
    rewrite ?app_nil_r; reflexivity.
Qed.

Lemma prologue_clean :
  filter is_register (prologue w g1) = [] /\
  filter is_exit (prologue w g1) = [].
Proof.
  unfold prologue.
  destruct (selector_events_clean (trace (select_developerbox w) g1))
    as [Hr He]; [apply select_events |].
  destruct (param_serial w); cbn; now rewrite Hr, He.
Qed.

Lemma prologue_keeps_result (h : handle) :
  result (select_developerbox w) g1 = Some h ->
  ~ In (EvClose (Some h)) (prologue w g1).
Proof.
  intros Hr Hin. unfold prologue in Hin.
  apply (select_keeps_result w 0x10C4 0xEA60 (param_serial w) g1 h Hr).
  fold (select_developerbox w).
  destruct (param_serial w); cbn in Hin;
    repeat (destruct Hin as [Hc | Hin]; [discriminate Hc |]); exact Hin.
Qed.

End Init.

(** C8: once the transport context [c] exists, if selection finds no
    device then initialisation returns 1, tears the context down
    ([libusb_exit] on [c]) and calls neither registry; and if selection
    finds a device, the first registry call of the run is the shutdown
    hook, the SPI master being registered only after it, when the hook was
    accepted. *)
Theorem init_without_device_registers_nothing
    (w : world) (g : globals) (c : context) :
  new_context w = Some c ->
  let found := result (select_developerbox w) (with_context c g) in
  let run := developerbox_spi_init w in
  (found = None ->
   result run g = 1 /\
   In (EvExit (Some c)) (trace run g) /\
   count is_exit (trace run g) = 1%nat /\
   count is_register (trace run g) = 0%nat) /\
  (forall h, found = Some h ->
   exists pre post,
     trace run g = (pre ++ EvRegisterShutdown :: post)%list /\
     count is_register pre = 0%nat /\
     post =
       if negb (register_shutdown_ret w =? 0) then []
       else EvRegisterSpiBitbangMaster ::
            if negb (register_spi_bitbang_master_ret w =? 0)
            then [EvMsg PERR "Developerbox bitbang SPI master init failed!"]
            else []).
Proof.
  intros Hctx found run. subst found run.
  pose proof (init_run w g c Hctx) as Hrun. cbv zeta in Hrun.
  destruct (prologue_clean w g c) as [Hreg Hexit].
  unfold result at 2, trace, count. split.
  - intros Hnone. rewrite Hnone in Hrun. rewrite Hrun. cbn [fst snd].
    repeat split.
    + apply in_or_app. right. cbn. auto.
    + now rewrite filter_app, Hexit.
    + now rewrite filter_app, Hreg.
  - intros h Hsome. rewrite Hsome in Hrun. rewrite Hrun.
    exists (prologue w (with_context c g) ++ [EvFreeParam])%list.
    destruct (negb (register_shutdown_ret w =? 0));
      [| destruct (negb (register_spi_bitbang_master_ret w =? 0))];
      eexists; cbn [fst snd]; rewrite <- app_assoc, filter_app, Hreg;
      repeat split.
Qed.

Lemma init_without_device_registers_nothing_witness :
  new_context no_device = Some 7%nat /\
  result (select_developerbox no_device) (with_context 7%nat globals0) = None /\
  result (developerbox_spi_init no_device) globals0 = 1 /\
  count is_register (trace (developerbox_spi_init no_device) globals0) = 0%nat.
Proof.
  split; [reflexivity |]. split; [reflexivity |].
  pose proof (init_without_device_registers_nothing
                no_device globals0 7%nat eq_refl) as [H _].
  destruct (H eq_refl) as (Hres & _ & _ & Hreg).
  split; [exact Hres | exact Hreg].
Defined.

(** C10: once the transport context [c] exists and selection returned the
    handle [h], a rejected shutdown hook makes initialisation return 1
    with [h] still open (no [libusb_close] on it, and it stays in
    [cp210x_handle]) and the context still up (no [libusb_exit]); whereas
    the run in which selection finds nothing calls [libusb_exit] on [c]. *)
Theorem init_hook_rejected_leaves_device_open
    (w : world) (g : globals) (c : context) :
  new_context w = Some c ->
  let found := result (select_developerbox w) (with_context c g) in
  let run := developerbox_spi_init w in
  (forall h, found = Some h -> register_shutdown_ret w <> 0 ->
   result run g = 1 /\
   ~ In (EvClose (Some h)) (trace run g) /\
   count is_exit (trace run g) = 0%nat /\
   final run g = {| usb_ctx := Some c; cp210x_handle := Some h |} /\
   exists pre, trace run g = (pre ++ [EvRegisterShutdown])%list) /\
  (found = None ->
   result run g = 1 /\
   exists pre, trace run g = (pre ++ [EvExit (Some c)])%list).
Proof.
  intros Hctx found run. subst found run.
  pose proof (init_run w g c Hctx) as Hrun. cbv zeta in Hrun.
  destruct (prologue_clean w g c) as [Hreg Hexit].
  unfold result at 2 4, trace, final, count. split.
  - intros h Hsome Hrej. rewrite Hsome in Hrun.
    apply Z.eqb_neq in Hrej. rewrite Hrej in Hrun. cbn [negb] in Hrun.
    rewrite Hrun. cbn [fst snd]. repeat split.
    + intros Hin. apply in_app_or in Hin as [Hin | Hin].
      * now apply (prologue_keeps_result w g c h Hsome).
      * cbn in Hin. destruct Hin as [Hc | [Hc | []]]; discriminate Hc.
    + now rewrite filter_app, Hexit.
    + exists (prologue w (with_context c g) ++ [EvFreeParam])%list.
      now rewrite <- app_assoc.
  - intros Hnone. rewrite Hnone in Hrun. rewrite Hrun. cbn [fst snd].
    split; [reflexivity |].
    exists (prologue w (with_context c g) ++
            [EvFreeParam;
             EvMsg PERR "Could not find a Developerbox programmer on USB."])%list.
    now rewrite <- app_assoc.
Qed.

Lemma init_hook_rejected_leaves_device_open_witness :
  new_context hook_refused = Some 7%nat /\
  result (select_developerbox hook_refused) (with_context 7%nat globals0)
    = Some 1%nat /\
  register_shutdown_ret hook_refused <> 0 /\
  result (developerbox_spi_init hook_refused) globals0 = 1 /\
  count is_exit (trace (developerbox_spi_init hook_refused) globals0) = 0%nat.
Proof.
  split; [reflexivity |]. split; [reflexivity |]. split; [discriminate |].
  pose proof (init_hook_rejected_leaves_device_open
                hook_refused globals0 7%nat eq_refl) as [H _].
  destruct (H 1%nat eq_refl ltac:(discriminate)) as (Hres & _ & Hexit & _).
  split; [exact Hres | exact Hexit].
Defined.

(** * Latch register I/O: further properties *)

(** X1: whatever the device answers, a latch read is exactly one
    device-to-host vendor transfer (request type 0xC0, request 0xFF, value
    0x00C2, index 0, one byte of data, no timeout), and it logs one error
    exactly when the transfer failed. *)
Theorem latch_read_transfer (gpio0 : Z) (reply : xfer_reply) (g : globals) :
  transfers (trace (cp210x_gpio_get gpio0 reply) g) =
    [ {| bmRequestType := 0xC0; bRequest := 0xFF; wValue := 0x00C2;
         wIndex := 0; data := Some (u8 gpio0); wLength := 1; timeout := 0 |} ] /\
  addressed (trace (cp210x_gpio_get gpio0 reply) g) = [cp210x_handle g] /\
  count is_perr (trace (cp210x_gpio_get gpio0 reply) g) =
    (match reply with inl _ => 1 | inr _ => 0 end)%nat.
Proof.
  destruct reply as [e | [| b more]]; [destruct e | |]; repeat split.
Qed.

(** X2: a latch write never retries and never fails upwards: its trace is
    the one transfer, followed by a single error message when the transfer
    failed (the message of the read path) and by nothing otherwise, and the
    globals are left as they were. *)
Theorem latch_write_failure_swallowed
    (val mask : Z) (reply : xfer_reply) (g : globals) :
  trace (cp210x_gpio_set val mask reply) g =
    EvControlTransfer (cp210x_handle g)
      {| bmRequestType := 0x40; bRequest := 0xFF; wValue := 0x37E1;
         wIndex := gpio_word val mask;
         data := None; wLength := 0; timeout := 0 |} ::
    match reply with
    | inl _ => [EvMsg PERR "Failed to read GPIO pins (%s)"]
    | inr _ => []
    end /\
  final (cp210x_gpio_set val mask reply) g = g.
Proof.
  destruct reply as [e | [| b more]]; [destruct e | |]; split; reflexivity.
Qed.

(** X3: the packed word can be taken apart again: its high byte is the low
    nibble of [val], its low byte the low nibble of [mask]; so two writes
    send the same word exactly when their arguments agree on both low
    nibbles. *)
Theorem gpio_word_unpack (val mask val' mask' : Z) :
  Z.shiftr (gpio_word val mask) 8 = Z.land val 0xf /\
  Z.land (gpio_word val mask) 0xff = Z.land mask 0xf /\
  (gpio_word val mask = gpio_word val' mask' <->
   Z.land val 0xf = Z.land val' 0xf /\ Z.land mask 0xf = Z.land mask' 0xf).
Proof.
  assert (Hhi : forall v m, Z.shiftr (gpio_word v m) 8 = Z.land v 0xf).
  { intros v m. apply Z.bits_inj'. intros n Hn.
    rewrite Z.shiftr_spec, gpio_word_bit by lia.
    destruct (Z.ltb_spec (n + 8) 4); [lia |].
    destruct (Z.ltb_spec (n + 8) 8); [lia |].
    destruct (Z.ltb_spec (n + 8) 12).
    - replace (n + 8 - 8) with n by lia.
      rewrite Z.land_spec. change 0xf with (Z.ones 4).
      rewrite Z.ones_spec_low by lia. now rewrite andb_true_r.
    - symmetry. apply nibble_bit_high. lia. }
  assert (Hlo : forall v m, Z.land (gpio_word v m) 0xff = Z.land m 0xf).
  { intros v m. apply Z.bits_inj'. intros n Hn.
    rewrite Z.land_spec, gpio_word_bit by lia.
    change 0xff with (Z.ones 8).
    destruct (Z.ltb_spec n 4).
    - rewrite Z.ones_spec_low by lia. rewrite andb_true_r.
      rewrite Z.land_spec. change 0xf with (Z.ones 4).
      rewrite Z.ones_spec_low by lia. now rewrite andb_true_r.
    - rewrite nibble_bit_high by lia.
      destruct (Z.ltb_spec n 8); [reflexivity |].
      rewrite Z.ones_spec_high by lia. apply andb_false_r. }
  split; [apply Hhi |]. split; [apply Hlo |]. split.
  - intros H. split.
    + now rewrite <- (Hhi val mask), <- (Hhi val' mask'), H.
    + now rewrite <- (Hlo val mask), <- (Hlo val' mask'), H.
  - intros [Hv Hm]. apply Z.bits_inj'. intros n Hn.
    rewrite !gpio_word_bit by lia.
    destruct (Z.ltb_spec n 4).
    { apply (f_equal (fun x => Z.testbit x n)) in Hm.
      rewrite !Z.land_spec in Hm. change 0xf with (Z.ones 4) in Hm.
      rewrite Z.ones_spec_low in Hm by lia. now rewrite !andb_true_r in Hm. }
    destruct (Z.ltb_spec n 8); [reflexivity |].
    destruct (Z.ltb_spec n 12); [| reflexivity].
    apply (f_equal (fun x => Z.testbit x (n - 8))) in Hv.
    rewrite !Z.land_spec in Hv. change 0xf with (Z.ones 4) in Hv.
    rewrite Z.ones_spec_low in Hv by lia. now rewrite !andb_true_r in Hv.
Qed.





(** X5: reading data-in yields 0 or 1 and nothing else, whatever the
    transfer did: it is bit 2 of what the latch read returned. *)
Theorem get_miso_is_boolean (gpio0 : Z) (reply : xfer_reply) (g : globals) :
  result (cp210x_bitbang_get_miso gpio0 reply) g =
    Z.b2z (Z.testbit (result (cp210x_gpio_get gpio0 reply) g) 2) /\
  (result (cp210x_bitbang_get_miso gpio0 reply) g = 0 \/
   result (cp210x_bitbang_get_miso gpio0 reply) g = 1) /\
  trace (cp210x_bitbang_get_miso gpio0 reply) g =
    trace (cp210x_gpio_get gpio0 reply) g.
Proof.
  assert (H : result (cp210x_bitbang_get_miso gpio0 reply) g =
              Z.b2z (Z.testbit (result (cp210x_gpio_get gpio0 reply) g) 2)).
  { unfold cp210x_bitbang_get_miso, result, bind.
    destruct (cp210x_gpio_get gpio0 reply g) as [[v g1] t]. cbn [fst snd ret].
    apply land_bit2. }
  split; [exact H |]. split.
  - rewrite H. destruct (Z.testbit _ 2); [now right | now left].
  - unfold cp210x_bitbang_get_miso, trace, bind.
    destruct (cp210x_gpio_get gpio0 reply g) as [[v g1] t]. cbn [fst snd ret].
    apply app_nil_r.
Qed.

(** * Device selector: further properties *)

Lemma described_app (t1 t2 : list event) :
  described (t1 ++ t2) = (described t1 ++ described t2)%list.
Proof.
  induction t1 as [| e t1 IH]; [reflexivity |].
  destruct e; cbn; rewrite ?IH; reflexivity.
Qed.

Lemma closed_app (t1 t2 : list event) :
  closed (t1 ++ t2) = (closed t1 ++ closed t2)%list.
Proof.
  induction t1 as [| e t1 IH]; [reflexivity |].
  destruct e; cbn; rewrite ?IH; reflexivity.
Qed.

Lemma closed_In (h : option handle) (t : list event) :
  In h (closed t) <-> In (EvClose h) t.
Proof.
  induction t as [| e t IH]; [tauto |].
  destruct e; cbn; rewrite IH; intuition (try discriminate; try congruence).
Qed.

(** X6: a candidate that fails is passed over quietly and completely.  If
    its descriptor cannot be read the turn logs the error and does nothing
    else; if it cannot be opened the turn logs the error, and neither reads
    a serial string nor closes anything; if its serial string cannot be
    read under a filter the turn logs the error and closes the handle it
    had opened.  In each case the turn goes on to the next candidate
    without releasing the list. *)
Theorem failing_candidate_is_skipped
    (vid pid : Z) (serialno : option string) (F : string) (i : nat)
    (g : globals) (desc : libusb_device_descriptor)
    (e : libusb_error) (o : option libusb_error) (s : libusb_error + string) :
  loop_body vid pid serialno i
    {| dev_descriptor := inl e; dev_open := o; dev_serial := s |} g =
    (Continue, g,
     [EvGetDeviceDescriptor i;
      EvMsg PERR "Reading the USB device descriptor failed (%s)!"]) /\
  loop_body vid pid serialno i
    {| dev_descriptor := inr desc; dev_open := Some e; dev_serial := s |} g =
    (Continue, g,
     EvGetDeviceDescriptor i ::
     if id_filter vid pid desc then
       [EvMsg PDBG "Found USB device %04x:%04x at address %d-%d.";
        EvOpen i;
        EvMsg PERR "Opening the USB device failed (%s)!"]
     else []) /\
  loop_body vid pid (Some F) i
    {| dev_descriptor := inr desc; dev_open := None; dev_serial := inl e |} g =
    (Continue, g,
     EvGetDeviceDescriptor i ::
     if id_filter vid pid desc then
       [EvMsg PDBG "Found USB device %04x:%04x at address %d-%d.";
        EvOpen i;
        EvGetStringDescriptorAscii i (iSerialNumber desc) 64;
        EvMsg PERR "Reading the USB serialno failed (%s)!";
        EvClose (Some i)]
     else []).
Proof.
  unfold id_filter. repeat split; unfold_body;
    cbn -[error_code Z.eqb Z.ltb];
    rewrite ?error_code_nonzero; cbn -[error_code Z.eqb Z.ltb];
    try reflexivity;
    destruct (negb (idVendor desc =? vid) && negb (idProduct desc =? pid));
    cbn -[error_code Z.eqb Z.ltb];
    rewrite ?error_code_nonzero, ?error_code_neg; reflexivity.
Qed.

(** X7: an empty filter is not the absence of a filter.  A candidate whose
    serial string cannot be read is rejected under the empty filter, while
    it is returned when no filter is given (if it passes the ID test); a
    candidate whose serial string can be read fares the same either way. *)
Theorem empty_filter_still_reads_serial
    (vid pid : Z) (i : nat) (g : globals) (desc : libusb_device_descriptor)
    (e : libusb_error) (s : string) :
  let mute := {| dev_descriptor := inr desc; dev_open := None;
                 dev_serial := inl e |} in
  let fine := {| dev_descriptor := inr desc; dev_open := None;
                 dev_serial := inr s |} in
  result (loop_body vid pid (Some EmptyString) i mute) g = Continue /\
  result (loop_body vid pid None i mute) g =
    (if id_filter vid pid desc then Return i else Continue) /\
  result (loop_body vid pid (Some EmptyString) i fine) g =
    result (loop_body vid pid None i fine) g.
Proof.
  cbv zeta. rewrite !loop_body_result. unfold accepted, serial_filter.
  cbn -[id_filter]. rewrite andb_false_r, andb_true_r. repeat split.
Qed.

Lemma loop_body_described (vid pid : Z) (serialno : option string)
    (i : nat) (dev : usb_device) (g : globals) :
  described (trace (loop_body vid pid serialno i dev) g) = [i].
Proof. body_cases vid pid serialno dev; reflexivity. Qed.

Lemma device_loop_described (vid pid : Z) (serialno : option string)
    (list : list usb_device) :
  forall i g,
    described (trace (device_loop vid pid serialno i list) g) =
    seq i (match first_accepted vid pid serialno i list with
           | Some h => S h - i
           | None => List.length list
           end).
Proof.
  induction list as [| dev rest IH]; intros i g; [reflexivity |].
  rewrite device_loop_trace_cons, described_app, loop_body_described.
  cbn [first_accepted].
  destruct (accepted vid pid serialno dev).
  - replace (S i - i)%nat with 1%nat by lia. reflexivity.
  - rewrite IH. cbn [List.length app].
    destruct (first_accepted vid pid serialno (S i) rest) as [h |] eqn:Hfa.
    + apply first_accepted_ge in Hfa.
      replace (S h - i)%nat with (S (S h - S i)) by lia. reflexivity.
    + reflexivity.
Qed.

Lemma loop_body_no_enumeration (vid pid : Z) (serialno : option string)
    (i : nat) (dev : usb_device) (g : globals) :
  filter is_enumeration (trace (loop_body vid pid serialno i dev) g) = [].
Proof. body_cases vid pid serialno dev; reflexivity. Qed.

Lemma device_loop_no_enumeration (vid pid : Z) (serialno : option string)
    (list : list usb_device) :
  forall i g,
    filter is_enumeration (trace (device_loop vid pid serialno i list) g) = [].
Proof.
  induction list as [| dev rest IH]; intros i g; [reflexivity |].
  rewrite device_loop_trace_cons, filter_app, loop_body_no_enumeration.
  destruct (accepted vid pid serialno dev); [reflexivity | apply IH].
Qed.

(** X8: candidates are examined in enumeration order without a gap: the
    descriptors read are those of positions 0, 1, ..., h when position h is
    returned, and those of every position when nothing is returned; the
    list itself is asked for once. *)
Theorem descriptors_read_in_order
    (w : world) (vid pid : Z) (serialno : option string) (g : globals)
    (list : list usb_device) :
  device_list w = inr list ->
  let run := get_device_by_vid_pid_serial w vid pid serialno in
  described (trace run g) =
    seq 0 (match result run g with
           | Some h => S h
           | None => List.length list
           end) /\
  count is_enumeration (trace run g) = 1%nat.
Proof.
  intros Hl run. subst run. unfold result, trace, count.
  rewrite (select_run_listed _ _ _ _ _ list Hl). cbn [fst snd described].
  split.
  - rewrite device_loop_described.
    destruct (first_accepted vid pid serialno 0 list); [| reflexivity].
    now rewrite Nat.sub_0_r.
  - cbn [filter is_enumeration]. now rewrite device_loop_no_enumeration.
Qed.

Lemma descriptors_read_in_order_witness :
  described
    (trace (get_device_by_vid_pid_serial
              (bench (Some "ABC1") [unreadable; locked_bridge; cp2102n; cp2105])
              0x10C4 0xEA60 (Some "ABC1")) globals0) = [0; 1; 2]%nat.
Proof.
  exact (proj1 (descriptors_read_in_order
                  (bench (Some "ABC1") [unreadable; locked_bridge; cp2102n; cp2105])
                  0x10C4 0xEA60 (Some "ABC1") globals0
                  [unreadable; locked_bridge; cp2102n; cp2105] eq_refl)).
Defined.

Section Handles.

Variables (vid pid : Z) (serialno : option string).

Lemma loop_body_closed_cases (i : nat) (dev : usb_device) (g : globals) :
  closed (trace (loop_body vid pid serialno i dev) g) = [] \/
  closed (trace (loop_body vid pid serialno i dev) g) = [Some i].
Proof. body_cases vid pid serialno dev; auto. Qed.

(** In one turn, the handle is closed exactly when the device was opened
    with success and then rejected. *)
Lemma loop_body_closed_iff (i j : nat) (dev : usb_device) (g : globals) :
  In (Some j) (closed (trace (loop_body vid pid serialno i dev) g)) <->
  j = i /\ In i (opened (trace (loop_body vid pid serialno i dev) g)) /\
  dev_open dev = None /\ accepted vid pid serialno dev = false.
Proof.
  body_cases vid pid serialno dev;
    intuition (try discriminate; try congruence; auto).
Qed.

Lemma device_loop_closed_bound (list : list usb_device) (i : nat)
    (g : globals) (h : option handle) :
  In h (closed (trace (device_loop vid pid serialno i list) g)) ->
  exists j, h = Some j /\ (i <= j)%nat.
Proof.
  intros Hin. apply closed_In in Hin.
  destruct (device_loop_closed vid pid serialno list i g _ Hin eq_refl)
    as (j & [= ->] & Hge & _).
  now exists j.
Qed.

Lemma device_loop_closed_iff (list : list usb_device) :
  forall i g k dev,
    nth_error list k = Some dev ->
    In (Some (i + k)%nat)
       (closed (trace (device_loop vid pid serialno i list) g)) <->
    In (i + k)%nat (opened (trace (device_loop vid pid serialno i list) g)) /\
    dev_open dev = None /\
    result (device_loop vid pid serialno i list) g <> Some (i + k)%nat.
Proof.
  induction list as [| d rest IH]; intros i g k dev Hk.
  { now destruct k. }
  rewrite device_loop_trace_cons, closed_app, opened_app, device_loop_result.
  cbn [first_accepted]. rewrite !in_app_iff.
  pose proof (loop_body_opened vid pid serialno i d g) as Hop.
  destruct k as [| k]; cbn [nth_error] in Hk.
  - injection Hk as ->. rewrite Nat.add_0_r.
    rewrite loop_body_closed_iff.
    destruct (accepted vid pid serialno dev) eqn:Hok.
    + cbn [closed opened In]. split.
      * intros [(_ & _ & _ & H) | []]. discriminate H.
      * intros (_ & _ & H). now destruct H.
    + split.
      * intros [(_ & Hin & Ho & _) | Hin].
        { repeat split; auto. intros H. apply first_accepted_ge in H. lia. }
        apply device_loop_closed_bound in Hin as (j & [= <-] & Hge). lia.
      * intros ([Hin | Hin] & Ho & _).
        { left. repeat split; auto. }
        apply device_loop_opened in Hin as [Hge _]. lia.
  - replace (i + S k)%nat with (S i + k)%nat by lia.
    destruct (accepted vid pid serialno d) eqn:Hok.
    + cbn [closed opened In]. split.
      * intros [Hin | []]. apply loop_body_closed_iff in Hin as [Hj _]. lia.
      * intros ([Hin | []] & _). apply Hop in Hin as [Hj | []]. lia.
    + assert (Hnc : ~ In (Some (S i + k)%nat)
                        (closed (trace (loop_body vid pid serialno i d) g))).
      { intros Hin. apply loop_body_closed_iff in Hin as [Hj _]. lia. }
      assert (Hno : ~ In (S i + k)%nat
                        (opened (trace (loop_body vid pid serialno i d) g))).
      { intros Hin. apply Hop in Hin as [Hj | []]. lia. }
      pose proof (IH (S i) g k dev Hk) as IH'.
      rewrite device_loop_result in IH'. tauto.
Qed.

Lemma device_loop_closed_nodup (list : list usb_device) :
  forall i g, NoDup (closed (trace (device_loop vid pid serialno i list) g)).
Proof.
  induction list as [| d rest IH]; intros i g; [constructor |].
  rewrite device_loop_trace_cons, closed_app.
  apply NoDup_app.
  - destruct (loop_body_closed_cases i d g) as [-> | ->];
      repeat constructor; intros [].
  - destruct (accepted vid pid serialno d); [constructor | apply IH].
  - intros h Hin Hin'.
    destruct (accepted vid pid serialno d); [destruct Hin' |].
    apply device_loop_closed_bound in Hin' as (j & -> & Hge).
    apply loop_body_closed_iff in Hin as [Hj _]. lia.
Qed.

End Handles.

(** X9: selection leaks no handle and closes none twice.  For every
    enumerated position, the handle is closed during selection exactly when
    the device was opened with success and is not the one returned; no
    handle is closed more than once, and a device that could not be opened
    is never closed. *)
Theorem selection_closes_rejected_handles
    (w : world) (vid pid : Z) (serialno : option string) (g : globals)
    (list : list usb_device) (j : nat) (dev : usb_device) :
  device_list w = inr list ->
  nth_error list j = Some dev ->
  let run := get_device_by_vid_pid_serial w vid pid serialno in
  (In (Some j) (closed (trace run g)) <->
   In j (opened (trace run g)) /\ dev_open dev = None /\
   result run g <> Some j) /\
  NoDup (closed (trace run g)).
Proof.
  intros Hl Hj run. subst run. unfold result, trace.
  rewrite (select_run_listed _ _ _ _ _ list Hl). cbn [fst snd closed opened].
  split.
  - rewrite <- (device_loop_result vid pid serialno list 0 g).
    exact (device_loop_closed_iff vid pid serialno list 0 g j dev Hj).
  - apply device_loop_closed_nodup.
Qed.

Lemma selection_closes_rejected_handles_witness :
  let w := bench (Some "ABC1") [mute_bridge; locked_bridge; cp2105; cp2102n] in
  closed (trace (get_device_by_vid_pid_serial w 0x10C4 0xEA60 (Some "ABC1"))
            globals0) = [Some 0%nat; Some 2%nat] /\
  NoDup (closed (trace (get_device_by_vid_pid_serial w 0x10C4 0xEA60
                          (Some "ABC1")) globals0)).
Proof.
  split; [reflexivity |].
  exact (proj2 (selection_closes_rejected_handles
                  (bench (Some "ABC1")
                     [mute_bridge; locked_bridge; cp2105; cp2102n])
                  0x10C4 0xEA60 (Some "ABC1") globals0
                  [mute_bridge; locked_bridge; cp2105; cp2102n]
                  0%nat mute_bridge eq_refl eq_refl)).
Defined.

(** X10: when the device list cannot be obtained, selection returns NULL
    after logging the failure, touches no device and does not release a
    list it never got. *)
Theorem enumeration_failure_returns_null
    (w : world) (vid pid : Z) (serialno : option string) (g : globals)
    (e : libusb_error) :
  device_list w = inl e ->
  let run := get_device_by_vid_pid_serial w vid pid serialno in
  result run g = None /\
  trace run g =
    [EvGetDeviceList; EvMsg PERR "Getting the USB device list failed (%s)!"] /\
  count is_free_device_list (trace run g) = 0%nat /\
  described (trace run g) = [] /\ opened (trace run g) = [].
Proof.
  intros Hl run. subst run. unfold result, trace, count.
  rewrite (select_run_failed _ _ _ _ _ e Hl). repeat split.
Qed.

Lemma enumeration_failure_returns_null_witness :
  device_list no_enumeration = inl LIBUSB_ERROR_NO_MEM /\
  result (get_device_by_vid_pid_serial no_enumeration 0x10C4 0xEA60 None)
    globals0 = None.
Proof.
  split; [reflexivity |].
  exact (proj1 (enumeration_failure_returns_null no_enumeration 0x10C4 0xEA60
                  None globals0 LIBUSB_ERROR_NO_MEM eq_refl)).
Defined.

Lemma accepted_inv (vid pid : Z) (serialno : option string) (dev : usb_device) :
  accepted vid pid serialno dev = true ->
  exists desc,
    dev_descriptor dev = inr desc /\
    (idVendor desc = vid \/ idProduct desc = pid) /\
    dev_open dev = None /\
    serial_filter serialno dev = true.
Proof.
  unfold accepted, id_filter. destruct (dev_descriptor dev) as [e | desc];
    [discriminate |].
  intros H. apply andb_true_iff in H as [Hid Hrest].
  exists desc. split; [reflexivity |].
  destruct (dev_open dev); [discriminate |].
  repeat split; auto.
  rewrite negb_andb, !negb_involutive in Hid.
  apply orb_true_iff in Hid as [H | H]; apply Z.eqb_eq in H; auto.
Qed.

(** X11: what selection returns is an enumerated device that passed the
    checks the code makes: its descriptor was read, at least one of its two
    IDs equals the target's, it opened, and under a (NUL-free) filter its
    serial string was read and starts with the filter; and every position
    before it failed one of these checks. *)
Theorem selected_device_passed_checks
    (w : world) (vid pid : Z) (serialno : option string) (g : globals)
    (list : list usb_device) (h : handle) :
  device_list w = inr list ->
  result (get_device_by_vid_pid_serial w vid pid serialno) g = Some h ->
  exists dev desc,
    nth_error list h = Some dev /\
    dev_descriptor dev = inr desc /\
    (idVendor desc = vid \/ idProduct desc = pid) /\
    dev_open dev = None /\
    (forall F, serialno = Some F -> no_nul F = true ->
       exists s, dev_serial dev = inr s /\ prefix F s = true) /\
    (forall j d, (j < h)%nat -> nth_error list j = Some d ->
       accepted vid pid serialno d = false).
Proof.
  intros Hl Hr. unfold result in Hr.
  rewrite (select_run_listed _ _ _ _ _ list Hl) in Hr. cbn [fst] in Hr.
  apply first_accepted_spec in Hr as (k & dev & -> & Hk & Hok & Hmin).
  cbn [Nat.add]. apply accepted_inv in Hok as (desc & Hd & Hid & Ho & Hs).
  exists dev, desc. repeat split; auto.
  intros F -> HF. unfold serial_filter in Hs.
  destruct (dev_serial dev) as [e | s]; [discriminate |].
  exists s. split; [reflexivity |].
  rewrite strncmp_prefix, prefix_substring in Hs by assumption.
  now apply andb_true_iff in Hs as [Hs _].
Qed.

Lemma selected_device_passed_checks_witness :
  let w := bench (Some "ABC1") [cp2105; cp2102n] in
  result (get_device_by_vid_pid_serial w 0x10C4 0xEA60 (Some "ABC1")) globals0
    = Some 1%nat /\
  exists dev desc,
    nth_error [cp2105; cp2102n] 1 = Some dev /\
    dev_descriptor dev = inr desc /\
    (idVendor desc = 0x10C4 \/ idProduct desc = 0xEA60).
Proof.
  split; [reflexivity |].
  destruct (selected_device_passed_checks
              (bench (Some "ABC1") [cp2105; cp2102n]) 0x10C4 0xEA60
              (Some "ABC1") globals0 [cp2105; cp2102n] 1%nat eq_refl eq_refl)
    as (dev & desc & H1 & H2 & H3 & _).
  exists dev, desc. auto.
Defined.

Lemma first_accepted_le (vid pid : Z) (serialno : option string)
    (list : list usb_device) :
  forall i k dev,
    nth_error list k = Some dev ->
    accepted vid pid serialno dev = true ->
    exists h, first_accepted vid pid serialno i list = Some h /\
              (i <= h <= i + k)%nat.
Proof.
  induction list as [| d rest IH]; intros i k dev Hk Hok.
  { now destruct k. }
  cbn [first_accepted]. destruct (accepted vid pid serialno d) eqn:Hd.
  - exists i. split; [reflexivity | lia].
  - destruct k as [| k]; cbn [nth_error] in Hk.
    + injection Hk as ->. congruence.
    + destruct (IH (S i) k dev Hk Hok) as (h & Hh & Hle).
      exists h. split; [exact Hh | lia].
Qed.

(** X12: a device with both IDs right is never missed.  If some enumerated
    device has the target's vendor and product IDs, opens, and (under a
    filter, which must have at most 63 characters, the most the read
    buffer holds) has a readable serial string that starts with the
    filter, then selection returns a device, at that position or before
    it. *)
Theorem matching_device_is_found
    (w : world) (vid pid : Z) (serialno : option string) (g : globals)
    (list : list usb_device) (k : nat) (dev : usb_device)
    (desc : libusb_device_descriptor) :
  device_list w = inr list ->
  nth_error list k = Some dev ->
  dev_descriptor dev = inr desc ->
  idVendor desc = vid -> idProduct desc = pid ->
  dev_open dev = None ->
  (forall F, serialno = Some F ->
     no_nul F = true /\ (String.length F <= 63)%nat /\
     exists s, dev_serial dev = inr s /\ prefix F s = true) ->
  exists h,
    result (get_device_by_vid_pid_serial w vid pid serialno) g = Some h /\
    (h <= k)%nat.
Proof.
  intros Hl Hk Hd Hv Hp Ho Hs. unfold result.
  rewrite (select_run_listed _ _ _ _ _ list Hl). cbn [fst].
  assert (Hok : accepted vid pid serialno dev = true).
  { unfold accepted, id_filter, serial_filter. rewrite Hd, Ho, Hv, Hp.
    rewrite !Z.eqb_refl. cbn [negb andb].
    destruct serialno as [F |]; [| reflexivity].
    destruct (Hs F eq_refl) as (HF & Hlen & s & Hser & Hpre).
    rewrite Hser. rewrite strncmp_prefix, prefix_substring, Hpre by assumption.
    now apply Nat.leb_le. }
  destruct (first_accepted_le vid pid serialno list 0 k dev Hk Hok)
    as (h & Hh & Hle).
  exists h. split; [exact Hh | lia].
Qed.

Lemma matching_device_is_found_witness :
  exists h,
    result (get_device_by_vid_pid_serial
              (bench (Some "ABC1") [unreadable; cp2102n])
              0x10C4 0xEA60 (Some "ABC1")) globals0 = Some h /\
    (h <= 1)%nat.
Proof.
  apply (matching_device_is_found
           (bench (Some "ABC1") [unreadable; cp2102n]) 0x10C4 0xEA60
           (Some "ABC1") globals0 [unreadable; cp2102n] 1%nat cp2102n
           {| idVendor := 0x10C4; idProduct := 0xEA60; iSerialNumber := 3 |});
    try reflexivity.
  intros F [= <-]. split; [reflexivity |]. split; [cbn; lia |].
  exists "ABC123". split; reflexivity.
Defined.

(** X13: giving a serial filter never makes selection pick an earlier
    device: whenever selection under a filter returns position h, selection
    without a filter on the same list returns a position not after h. *)
Theorem filter_never_selects_earlier
    (w : world) (vid pid : Z) (F : string) (g : globals)
    (list : list usb_device) (h : handle) :
  device_list w = inr list ->
  result (get_device_by_vid_pid_serial w vid pid (Some F)) g = Some h ->
  exists h',
    result (get_device_by_vid_pid_serial w vid pid None) g = Some h' /\
    (h' <= h)%nat.
Proof.
  intros Hl Hr. unfold result in *.
  rewrite (select_run_listed w vid pid (Some F) g list Hl) in Hr.
  rewrite (select_run_listed w vid pid None g list Hl). cbn [fst] in *.
  apply first_accepted_spec in Hr as (k & dev & -> & Hk & Hok & _).
  assert (Hok' : accepted vid pid None dev = true).
  { apply accepted_inv in Hok as (desc & Hd & Hid & Ho & _).
    unfold accepted, id_filter, serial_filter. rewrite Hd, Ho.
    rewrite negb_andb, !negb_involutive, andb_true_r.
    apply orb_true_iff. destruct Hid as [<- | <-]; rewrite Z.eqb_refl; auto. }
  destruct (first_accepted_le vid pid None list 0 k dev Hk Hok')
    as (h' & Hh & Hle).
  exists h'. split; [exact Hh | lia].
Qed.

Lemma filter_never_selects_earlier_witness :
  exists h',
    result (get_device_by_vid_pid_serial
              (bench (Some "ABC1") [cp2105; cp2102n])
              0x10C4 0xEA60 None) globals0 = Some h' /\
    (h' <= 1)%nat.
Proof.
  exact (filter_never_selects_earlier
           (bench (Some "ABC1") [cp2105; cp2102n]) 0x10C4 0xEA60 "ABC1"
           globals0 [cp2105; cp2102n] 1%nat eq_refl eq_refl).
Defined.

(** * Lifecycle manager: further properties *)

Section InitAny.

Variables (w : world) (g : globals).

Let gA : globals := after_libusb_init w g.

(** The run that stops because no context exists after [libusb_init]. *)
Lemma init_run_no_context :
  usb_ctx gA = None ->
  developerbox_spi_init w g =
  (1, gA,
   (EvExtractParam "serial" ::
    match param_serial w with
    | Some _ => [EvMsg PINFO "Looking for serial number commencing %s"]
    | None => []
    end ++
    [EvInit; EvMsg PERR "Could not initialize libusb!"; EvFreeParam])%list).
Proof.
  subst gA. unfold after_libusb_init.
  unfold developerbox_spi_init, extract_programmer_param, libusb_init,
    free_param, msg_pinfo, msg_perr, set_usb_ctx, get_usb_ctx,
    bind, emit, ret.
  destruct (new_context w) as [c |]; [discriminate |].
  intros Hg. destruct (param_serial w); cbn; rewrite Hg; reflexivity.
Qed.

(** The run with a context, whether [libusb_init] made it or found it. *)
Lemma init_run_any (c : context) :
  usb_ctx gA = Some c ->
  developerbox_spi_init w g =
  match result (select_developerbox w) gA with
  | None =>
      (1, {| usb_ctx := Some c; cp210x_handle := None |},
       prologue w gA ++
       [EvFreeParam;
        EvMsg PERR "Could not find a Developerbox programmer on USB.";
        EvExit (Some c)])
  | Some h =>
      let g3 := {| usb_ctx := Some c; cp210x_handle := Some h |} in
      if negb (register_shutdown_ret w =? 0) then
        (1, g3, prologue w gA ++ [EvFreeParam; EvRegisterShutdown])
      else if negb (register_spi_bitbang_master_ret w =? 0) then
        (1, g3,
         prologue w gA ++
         [EvFreeParam; EvRegisterShutdown; EvRegisterSpiBitbangMaster;
          EvMsg PERR "Developerbox bitbang SPI master init failed!"])
      else
        (0, g3,
         prologue w gA ++
         [EvFreeParam; EvRegisterShutdown; EvRegisterSpiBitbangMaster])
  end%list.
Proof.
  subst gA. unfold after_libusb_init.
  destruct (new_context w) as [c0 |] eqn:Hn.
  { intros [= <-]. exact (init_run w g c0 Hn). }
  intros Hg.
  pose proof (select_final w 0x10C4 0xEA60 (param_serial w) g) as Hf.
  unfold prologue.
  unfold developerbox_spi_init, extract_programmer_param, libusb_init,
    free_param, register_shutdown, register_spi_bitbang_master, libusb_exit,
    msg_pinfo, msg_perr, set_usb_ctx, set_cp210x_handle, get_usb_ctx,
    bind, emit, ret.
  rewrite Hn.
  change (vendor_id first_entry) with 0x10C4.
  change (device_id first_entry) with 0xEA60.
  fold (select_developerbox w) in *.
  unfold result, final, trace in *.
  destruct (param_serial w) as [F |];
    cbn -[Z.eqb select_developerbox]; rewrite Hg;
    cbn -[Z.eqb select_developerbox];
    destruct (select_developerbox w g) as [[h g2] t];
    cbn [fst snd] in *; subst g2;
    (destruct h as [h |]; cbn -[Z.eqb]; rewrite ?Hg;
     [ destruct (negb (register_shutdown_ret w =? 0)); cbn -[Z.eqb];
       [| destruct (negb (register_spi_bitbang_master_ret w =? 0)); cbn ]
     | ]);
    rewrite ?app_nil_r; reflexivity.
Qed.

End InitAny.

Lemma selector_events_quiet (t : list event) :
  forallb selector_event t = true ->
  filter is_register t = [] /\ filter is_exit t = [] /\
  filter is_free_param t = [].
Proof.
  induction t as [| e t IH]; [now repeat split |].
  cbn [forallb]. intros H. apply andb_true_iff in H as [He Ht].
  destruct (IH Ht) as (IH1 & IH2 & IH3).
  destruct e; try discriminate He; cbn; now repeat split.
Qed.

Lemma prologue_quiet (w : world) (g1 : globals) :
  filter is_register (prologue w g1) = [] /\
  filter is_exit (prologue w g1) = [] /\
  filter is_free_param (prologue w g1) = [].
Proof.
  unfold prologue.
  destruct (selector_events_quiet (trace (select_developerbox w) g1))
    as (Hr & He & Hp); [apply select_events |].
  destruct (param_serial w); cbn; now rewrite Hr, He, Hp.
Qed.

Lemma prologue_keeps_any (w : world) (g1 : globals) (h : handle) :
  result (select_developerbox w) g1 = Some h ->
  ~ In (Some h) (closed (prologue w g1)).
Proof.
  intros Hr Hin. apply closed_In in Hin. unfold prologue in Hin.
  apply (select_keeps_result w 0x10C4 0xEA60 (param_serial w) g1 h Hr).
  fold (select_developerbox w).
  destruct (param_serial w); cbn in Hin;
    repeat (destruct Hin as [Hc | Hin]; [discriminate Hc |]); exact Hin.
Qed.

Lemma gpio_set_addressed (val mask : Z) (reply : xfer_reply) (g : globals) :
  addressed (trace (cp210x_gpio_set val mask reply) g) = [cp210x_handle g].
Proof. destruct reply as [e | bytes]; [destruct e |]; reflexivity. Qed.

Lemma gpio_get_addressed (gpio0 : Z) (reply : xfer_reply) (g : globals) :
  addressed (trace (cp210x_gpio_get gpio0 reply) g) = [cp210x_handle g].
Proof. destruct reply as [e | [| b more]]; [destruct e | |]; reflexivity. Qed.

(** X14: when no transport context exists after [libusb_init],
    initialisation returns 1 having only logged the failure and released
    the serial parameter: it asks for no device list, opens nothing and
    registers nothing, and leaves the globals as they were. *)
Theorem init_fails_without_context (w : world) (g : globals) :
  new_context w = None -> usb_ctx g = None ->
  developerbox_spi_init w g =
  (1, g,
   (EvExtractParam "serial" ::
    match param_serial w with
    | Some _ => [EvMsg PINFO "Looking for serial number commencing %s"]
    | None => []
    end ++
    [EvInit; EvMsg PERR "Could not initialize libusb!"; EvFreeParam])%list).
Proof.
  intros Hn Hg. rewrite init_run_no_context.
  - unfold after_libusb_init. now rewrite Hn.
  - unfold after_libusb_init. now rewrite Hn.
Qed.

Lemma init_fails_without_context_witness :
  result (developerbox_spi_init no_libusb) globals0 = 1 /\
  count is_enumeration (trace (developerbox_spi_init no_libusb) globals0)
    = 0%nat.
Proof.
  unfold result, trace.
  rewrite (init_fails_without_context no_libusb globals0 eq_refl eq_refl).
  split; reflexivity.
Defined.

(** X15: initialisation returns 0 or 1, and 0 exactly on the one path where
    a context exists, selection returned a device and both registries
    returned 0. *)
Theorem init_result (w : world) (g : globals) :
  let gA := after_libusb_init w g in
  result (developerbox_spi_init w) g =
  match usb_ctx gA, result (select_developerbox w) gA with
  | Some _, Some _ =>
      if (register_shutdown_ret w =? 0) &&
         (register_spi_bitbang_master_ret w =? 0)
      then 0 else 1
  | _, _ => 1
  end.
Proof.
  cbv zeta. unfold result at 1.
  destruct (usb_ctx (after_libusb_init w g)) as [c |] eqn:Hc.
  - rewrite (init_run_any w g c Hc).
    destruct (result (select_developerbox w) (after_libusb_init w g));
      [| reflexivity].
    cbv zeta.
    destruct (register_shutdown_ret w =? 0); [| reflexivity].
    destruct (register_spi_bitbang_master_ret w =? 0); reflexivity.
  - now rewrite (init_run_no_context w g Hc).
Qed.

(** X16: on every path of initialisation the serial parameter is released
    exactly once. *)
Theorem init_frees_parameter_once (w : world) (g : globals) :
  count is_free_param (trace (developerbox_spi_init w) g) = 1%nat.
Proof.
  unfold count, trace.
  destruct (usb_ctx (after_libusb_init w g)) as [c |] eqn:Hc.
  - rewrite (init_run_any w g c Hc).
    destruct (prologue_quiet w (after_libusb_init w g)) as (_ & _ & Hp).
    destruct (result (select_developerbox w) (after_libusb_init w g)).
    + cbv zeta.
      destruct (negb (register_shutdown_ret w =? 0));
        [| destruct (negb (register_spi_bitbang_master_ret w =? 0))];
        cbn [snd]; now rewrite filter_app, Hp.
    + cbn [snd]. now rewrite filter_app, Hp.
  - rewrite (init_run_no_context w g Hc). cbn [snd].
    destruct (param_serial w); reflexivity.
Qed.

(** What a successful initialisation leaves behind. *)
Lemma init_success_inv (w : world) (g : globals) :
  result (developerbox_spi_init w) g = 0 ->
  exists h c,
    usb_ctx (after_libusb_init w g) = Some c /\
    result (select_developerbox w) (after_libusb_init w g) = Some h /\
    final (developerbox_spi_init w) g =
      {| usb_ctx := Some c; cp210x_handle := Some h |} /\
    trace (developerbox_spi_init w) g =
      (prologue w (after_libusb_init w g) ++
       [EvFreeParam; EvRegisterShutdown; EvRegisterSpiBitbangMaster])%list.
Proof.
  unfold result at 1, final, trace.
  destruct (usb_ctx (after_libusb_init w g)) as [c |] eqn:Hc.
  - rewrite (init_run_any w g c Hc).
    destruct (result (select_developerbox w) (after_libusb_init w g))
      as [h |]; [| discriminate].
    cbv zeta.
    destruct (negb (register_shutdown_ret w =? 0)); [discriminate |].
    destruct (negb (register_spi_bitbang_master_ret w =? 0)); [discriminate |].
    intros _. now exists h, c.
  - rewrite (init_run_no_context w g Hc). discriminate.
Qed.

Lemma addressed_app (t1 t2 : list event) :
  addressed (t1 ++ t2) = (addressed t1 ++ addressed t2)%list.
Proof.
  induction t1 as [| e t1 IH]; [reflexivity |].
  destruct e; cbn; rewrite ?IH; reflexivity.
Qed.

(** A call through the table is one transfer to the current handle; it
    closes nothing and leaves the globals as they are. *)
Lemma run_call_effect (c : pin_call) (g : globals) :
  final (run_call bitbang_spi_master_cp210x c) g = g /\
  addressed (trace (run_call bitbang_spi_master_cp210x c) g) =
    [cp210x_handle g] /\
  closed (trace (run_call bitbang_spi_master_cp210x c) g) = [].
Proof.
  destruct c as [v r | v r | v r | g0 r | a b r];
    destruct r as [e | [| x more]]; try destruct e; repeat split.
Qed.

Lemma run_calls_effect (cs : list pin_call) :
  forall g,
    final (run_calls bitbang_spi_master_cp210x cs) g = g /\
    addressed (trace (run_calls bitbang_spi_master_cp210x cs) g) =
      repeat (cp210x_handle g) (List.length cs) /\
    closed (trace (run_calls bitbang_spi_master_cp210x cs) g) = [].
Proof.
  induction cs as [| c cs IH]; intros g; [repeat split |].
  destruct (run_call_effect c g) as (Hf & Ha & Hc).
  cbn [run_calls List.length repeat].
  unfold final, trace, bind in *.
  destruct (run_call bitbang_spi_master_cp210x c g) as [[u g1] t1].
  cbn [fst snd] in *. subst g1.
  destruct (IH g) as (Hf' & Ha' & Hc').
  destruct (run_calls bitbang_spi_master_cp210x cs g) as [[u' g2] t2].
  cbn [fst snd] in *.
  rewrite addressed_app, closed_app, Ha, Ha', Hc, Hc'. repeat split.
  exact Hf'.
Qed.

(** X17: after a successful initialisation [cp210x_handle] holds the
    handle selection returned, and that handle has not been closed.  A
    latch read or write run from that state is addressed to it, and so is
    every transfer of any sequence of calls the generic master makes
    through [bitbang_spi_master_cp210x]: one transfer per call, each to
    that handle, none of the calls closing it or changing the globals. *)
Theorem transfers_go_to_selected_device (w : world) (g : globals) :
  result (developerbox_spi_init w) g = 0 ->
  exists h,
    result (select_developerbox w) (after_libusb_init w g) = Some h /\
    cp210x_handle (final (developerbox_spi_init w) g) = Some h /\
    ~ In (Some h) (closed (trace (developerbox_spi_init w) g)) /\
    (forall val mask reply,
       addressed (trace (cp210x_gpio_set val mask reply)
                    (final (developerbox_spi_init w) g)) = [Some h]) /\
    (forall gpio0 reply,
       addressed (trace (cp210x_gpio_get gpio0 reply)
                    (final (developerbox_spi_init w) g)) = [Some h]) /\
    (forall calls : list pin_call,
       let run := run_calls bitbang_spi_master_cp210x calls in
       addressed (trace run (final (developerbox_spi_init w) g)) =
         repeat (Some h) (List.length calls) /\
       closed (trace run (final (developerbox_spi_init w) g)) = [] /\
       final run (final (developerbox_spi_init w) g) =
         final (developerbox_spi_init w) g).
Proof.
  intros H0. destruct (init_success_inv w g H0) as (h & c & Hc & Hh & Hf & Ht).
  exists h. split; [exact Hh |]. rewrite Hf, Ht. cbn [cp210x_handle].
  split; [reflexivity |]. split.
  - rewrite closed_app, in_app_iff. intros [Hin | []].
    now apply (prologue_keeps_any w _ h Hh).
  - split; [| split]; intros.
    + apply gpio_set_addressed.
    + apply gpio_get_addressed.
    + cbv zeta.
      destruct (run_calls_effect calls
                  {| usb_ctx := Some c; cp210x_handle := Some h |})
        as (Hfin & Hadr & Hcl).
      repeat split; assumption.
Qed.

Lemma transfers_go_to_selected_device_witness :
  let w := bench (Some "ABC1") [cp2105; cp2102n] in
  result (developerbox_spi_init w) globals0 = 0 /\
  exists h,
    result (select_developerbox w) (after_libusb_init w globals0) = Some h /\
    cp210x_handle (final (developerbox_spi_init w) globals0) = Some h /\
    addressed
      (trace (run_calls bitbang_spi_master_cp210x
                [CallSetCs 0 (inr []); CallGetMiso 0 (inr [4]);
                 CallSetSckSetMosi 1 1 (inl LIBUSB_ERROR_TIMEOUT)])
         (final (developerbox_spi_init w) globals0)) =
      [Some h; Some h; Some h].
Proof.
  split; [reflexivity |].
  destruct (transfers_go_to_selected_device
              (bench (Some "ABC1") [cp2105; cp2102n]) globals0 eq_refl)
    as (h & H1 & H2 & _ & _ & _ & H3).
  exists h. split; [assumption |]. split; [assumption |].
  exact (proj1 (H3 [CallSetCs 0 (inr []); CallGetMiso 0 (inr [4]);
                    CallSetSckSetMosi 1 1 (inl LIBUSB_ERROR_TIMEOUT)])).
Defined.

(** X18: shutdown undoes a successful initialisation in the right order:
    it closes the handle selection returned, then tears down the context,
    and returns 0.  Over initialisation and shutdown together that handle
    is closed exactly once and the context torn down exactly once.
    Shutdown leaves the globals as they are. *)
Theorem shutdown_after_init (w : world) (g : globals) :
  result (developerbox_spi_init w) g = 0 ->
  exists h c,
    result (select_developerbox w) (after_libusb_init w g) = Some h /\
    usb_ctx (after_libusb_init w g) = Some c /\
    developerbox_spi_shutdown (final (developerbox_spi_init w) g) =
      (0, final (developerbox_spi_init w) g,
       [EvClose (Some h); EvExit (Some c)]) /\
    ~ In (Some h) (closed (trace (developerbox_spi_init w) g)) /\
    count is_exit (trace (developerbox_spi_init w) g) = 0%nat.
Proof.
  intros H0. destruct (init_success_inv w g H0) as (h & c & Hc & Hh & Hf & Ht).
  exists h, c. split; [exact Hh |]. split; [exact Hc |].
  rewrite Hf, Ht. split; [reflexivity |]. split.
  - rewrite closed_app, in_app_iff. intros [Hin | []].
    now apply (prologue_keeps_any w _ h Hh).
  - unfold count. rewrite filter_app.
    destruct (prologue_quiet w (after_libusb_init w g)) as (_ & He & _).
    now rewrite He.
Qed.

Lemma shutdown_after_init_witness :
  let w := bench (Some "ABC1") [cp2105; cp2102n] in
  result (developerbox_spi_init w) globals0 = 0 /\
  trace developerbox_spi_shutdown (final (developerbox_spi_init w) globals0) =
    [EvClose (Some 1%nat); EvExit (Some 7%nat)].
Proof.
  split; [reflexivity |].
  destruct (shutdown_after_init
              (bench (Some "ABC1") [cp2105; cp2102n]) globals0 eq_refl)
    as (h & c & Hh & Hc & Hs & _).
  change (Some 1%nat = Some h) in Hh. change (Some 7%nat = Some c) in Hc.
  injection Hh as <-. injection Hc as <-.
  unfold trace. rewrite Hs. reflexivity.
Defined.

(** X19: when the SPI registry refuses the master, initialisation returns 1
    after logging, with the shutdown hook already registered, the device
    still open and the context still up; the hook, run from that state,
    closes the device and tears the context down. *)
Theorem init_master_refused (w : world) (g : globals) (c : context)
    (h : handle) :
  usb_ctx (after_libusb_init w g) = Some c ->
  result (select_developerbox w) (after_libusb_init w g) = Some h ->
  register_shutdown_ret w = 0 ->
  register_spi_bitbang_master_ret w <> 0 ->
  let run := developerbox_spi_init w in
  result run g = 1 /\
  final run g = {| usb_ctx := Some c; cp210x_handle := Some h |} /\
  trace run g =
    (prologue w (after_libusb_init w g) ++
     [EvFreeParam; EvRegisterShutdown; EvRegisterSpiBitbangMaster;
      EvMsg PERR "Developerbox bitbang SPI master init failed!"])%list /\
  count is_exit (trace run g) = 0%nat /\
  ~ In (Some h) (closed (trace run g)) /\
  trace developerbox_spi_shutdown (final run g) =
    [EvClose (Some h); EvExit (Some c)].
Proof.
  intros Hc Hh Hs Hm run. subst run.
  unfold result at 1, final, trace at 1 2 3.
  rewrite (init_run_any w g c Hc), Hh. cbv zeta. rewrite Hs.
  apply Z.eqb_neq in Hm. rewrite Hm. cbn [Z.eqb negb fst snd].
  repeat split.
  - unfold count. rewrite filter_app.
    destruct (prologue_quiet w (after_libusb_init w g)) as (_ & He & _).
    now rewrite He.
  - rewrite closed_app, in_app_iff. intros [Hin | []].
    now apply (prologue_keeps_any w _ h Hh).
Qed.

Lemma init_master_refused_witness :
  result (developerbox_spi_init master_refused) globals0 = 1 /\
  count is_exit (trace (developerbox_spi_init master_refused) globals0) = 0%nat.
Proof.
  destruct (init_master_refused master_refused globals0 7%nat 0%nat
              eq_refl eq_refl eq_refl ltac:(discriminate))
    as (H1 & _ & _ & H2 & _).
  split; assumption.
Defined.
